(** * TestFlightNotifier: a shallow embedding of [src/__init__.py]

    The cog polls TestFlight invitation pages, remembers in an SQLite table
    whether each watched app was full, and posts a Discord message when the
    fetched status differs from the remembered one.

    The Python methods are embedded as functions in a state-and-exception
    monad over the cog's fields.  Everything the cog talks to (the HTTP
    session, BeautifulSoup's queries on the page, the Discord client) is an
    oracle indexed by a clock that advances at every external call, so an
    outcome may differ from one call to the next. *)

From Stdlib Require Import ZArith String Ascii List Bool Lia.
From stdpp Require Import base option list gmap strings pretty.

Local Open Scope string_scope.
Local Open Scope list_scope.

(** ** Python string operations used by the cog *)

Module Py.

(** [s.startswith(p)] *)
Definition startswith (p s : string) : bool := String.prefix p s.

Definition lower_char (c : ascii) : ascii :=
  let n := nat_of_ascii c in
  if (65 <=? n)%nat && (n <=? 90)%nat then ascii_of_nat (n + 32) else c.

(** [s.lower()], on the ASCII letters (the only ones the searched phrase
    contains). *)
Fixpoint lower (s : string) : string :=
  match s with
  | EmptyString => EmptyString
  | String c s' => String (lower_char c) (lower s')
  end.

(** [sub in s] *)
Fixpoint contains (sub s : string) : bool :=
  String.prefix sub s ||
  match s with
  | EmptyString => false
  | String _ s' => contains sub s'
  end.

Definition cons_head (c : ascii) (l : list string) : list string :=
  match l with
  | [] => [String c EmptyString]
  | h :: t => String c h :: t
  end.

(** The scan behind [s.split(sep, maxsplit)] for a non-empty [sep]: [budget]
    is the number of cuts still allowed and [skip] the number of characters
    of a matched separator still to drop.  The head of the result is the
    piece being read. *)
Fixpoint split_go (sep : string) (budget skip : nat) (s : string) : list string :=
  match s with
  | EmptyString => [EmptyString]
  | String c s' =>
      match skip with
      | S k => split_go sep budget k s'
      | O =>
          match budget with
          | S b =>
              if String.prefix sep s
              then EmptyString :: split_go sep b (String.length sep - 1) s'
              else cons_head c (split_go sep budget 0 s')
          | O => cons_head c (split_go sep budget 0 s')
          end
      end
  end.

(** [s.split(sep, maxsplit)] *)
Definition split_max (sep : string) (maxsplit : nat) (s : string) : list string :=
  split_go sep maxsplit 0 s.

(** [s.split(sep)]: a string of length [n] has at most [n] separators. *)
Definition split (sep : string) (s : string) : list string :=
  split_go sep (String.length s) 0 s.

Fixpoint strip_prefix (p s : string) : option string :=
  match p, s with
  | EmptyString, _ => Some s
  | String a p', String b s' =>
      if Ascii.eqb a b then strip_prefix p' s' else None
  | String _ _, EmptyString => None
  end.

(** [s.removeprefix(p)] *)
Definition removeprefix (p s : string) : string :=
  default s (strip_prefix p s).

(** [s.removesuffix(p)] *)
Definition removesuffix (p s : string) : string :=
  String.rev (removeprefix (String.rev p) (String.rev s)).

(** [x in l] for a list of strings *)
Definition list_in (x : string) (l : list string) : bool :=
  bool_decide (x ∈ l).

(** [l.remove(x)] when [x] occurs in [l]: drops the first occurrence. *)
Fixpoint list_remove (x : string) (l : list string) : list string :=
  match l with
  | [] => []
  | y :: l' => if String.eqb x y then l' else y :: list_remove x l'
  end.

(** [sep.join(l)] *)
Fixpoint join (sep : string) (l : list string) : string :=
  match l with
  | [] => EmptyString
  | x :: l' =>
      match l' with
      | [] => x
      | _ :: _ => x +:+ sep +:+ join sep l'
      end
  end.

End Py.

(** ** Data *)

(** The dataclass [TestFlightApp]. *)
Record TestFlightApp := mkApp {
  is_full : bool;
  id : string;
  name : string;
  icon_url : string
}.

(** What BeautifulSoup answers to the queries [fetch_app_info] makes on a
    page.  A missing element is [None], as [find] returns. *)
Record Element := mkElement {
  attrs : gmap string string
}.

Record StatusDiv := mkStatusDiv {
  span_text : option string;      (* .find("span"), then .text *)
  app_icon : option Element       (* .find("div", class_=["app-icon", "ios"]) *)
}.

Record Soup := mkSoup {
  status_div : option StatusDiv;            (* soup.find("div", id="status") *)
  head_title : option (option string)       (* soup.find("head"), .find("title").text *)
}.

(** The outcome of [session.get(...)] together with reading the body. *)
Inductive HttpOutcome :=
| TransportError
| Response (status : Z) (page : Soup).

Inductive ChannelOutcome :=
| ChannelFound
| ChannelNone
| ChannelRaises.

Inductive exn :=
| AssertionError
| AttributeError
| TypeError
| KeyError
| IndexError
| ClientError
| OperationalError
| DiscordException.

Inductive res (A : Type) :=
| Ret (a : A)
| Raise (e : exn).
Arguments Ret {A} a.
Arguments Raise {A} e.

Inductive Color := Red | Green.

Record Embed := mkEmbed {
  title : string;
  url : string;
  description : string;
  color : Color;
  thumbnail : string
}.

Record Message := mkMessage {
  content : option string;
  embed : option Embed
}.

(** External calls and log lines, in the order the cog makes them.  A send is
    recorded when it is attempted. *)
Inductive Event :=
| LogDebug (msg : string)
| LogError (msg : string)
| HttpGet (target : string)
| NotifyChange (info : TestFlightApp)     (* entry of send_info *)
| NotifyError (app_id : string)           (* entry of send_error *)
| ChannelSend (channel : Z) (m : Message)
| CtxSend (text : string).

(** The oracle for everything outside the cog. *)
Record World := mkWorld {
  http_get : nat -> string -> HttpOutcome;
  get_channel : nat -> Z -> bool;               (* bot.get_channel: cache hit? *)
  fetch_channel : nat -> Z -> ChannelOutcome;   (* bot.fetch_channel *)
  channel_send : nat -> bool;                   (* channel.send delivered? *)
  ctx_send : nat -> bool                        (* ctx.send delivered? *)
}.

(** The tables an open connection reaches.  SQLite resolves a table name
    without regard to the case of its letters: the key is the name in lower
    case.  A row of [state] maps [app_id] to [is_full]. *)
Abbreviation Table := (gmap string bool).
Abbreviation Database := (gmap string (gmap string bool)).

(** A table of the file: its name as [sqlite_master] lists it, spelled as
    the statement that created it, and its rows. *)
Record StoredTable := mkStoredTable {
  master_name : string;
  table_rows : gmap string bool
}.

(** The file [state.db], keyed like [Database]. *)
Abbreviation File := (gmap string StoredTable).

(** The tables of a file as the statements of the cog reach them. *)
Definition tables (file : gmap string StoredTable) : gmap string (gmap string bool) :=
  table_rows <$> file.

(** The cog's fields and the settings it reads. *)
Record Cog := mkCog {
  db_connection : Database;
  fresh_start : bool;
  session : bool;                       (* self.session is not None *)
  watched_apps : list string;
  send_errors : bool;
  notification_channel_id : Z;
  filled_message : string;
  unfilled_message : string;
  trace : list Event;
  clock : nat;
  total_changes : nat                   (* db_connection.total_changes *)
}.

(** ** The monad *)

Definition M (A : Type) : Type := Cog -> res A * Cog.

#[global] Instance M_ret : MRet M := fun A a c => (Ret a, c).
#[global] Instance M_bind : MBind M := fun A B f m c =>
  match m c with
  | (Ret a, c') => f a c'
  | (Raise e, c') => (Raise e, c')
  end.

Definition raise {A} (e : exn) : M A := fun c => (Raise e, c).
Definition gets {A} (f : Cog -> A) : M A := fun c => (Ret (f c), c).
Definition modify (f : Cog -> Cog) : M unit := fun c => (Ret tt, f c).

Definition set_db (d : Database) (c : Cog) : Cog :=
  mkCog d (fresh_start c) (session c) (watched_apps c) (send_errors c)
        (notification_channel_id c) (filled_message c) (unfilled_message c)
        (trace c) (clock c) (total_changes c).
Definition set_watched (l : list string) (c : Cog) : Cog :=
  mkCog (db_connection c) (fresh_start c) (session c) l (send_errors c)
        (notification_channel_id c) (filled_message c) (unfilled_message c)
        (trace c) (clock c) (total_changes c).
Definition emit (e : Event) (c : Cog) : Cog :=
  mkCog (db_connection c) (fresh_start c) (session c) (watched_apps c)
        (send_errors c) (notification_channel_id c) (filled_message c)
        (unfilled_message c) (trace c ++ [e]) (clock c) (total_changes c).
Definition tick (c : Cog) : Cog :=
  mkCog (db_connection c) (fresh_start c) (session c) (watched_apps c)
        (send_errors c) (notification_channel_id c) (filled_message c)
        (unfilled_message c) (trace c) (S (clock c)) (total_changes c).

(** One row was inserted: SQLite counts it in [total_changes], also when the
    row replaces one that held the same values. *)
Definition count_change (c : Cog) : Cog :=
  mkCog (db_connection c) (fresh_start c) (session c) (watched_apps c)
        (send_errors c) (notification_channel_id c) (filled_message c)
        (unfilled_message c) (trace c) (clock c) (S (total_changes c)).

(** Ask the oracle and advance the clock. *)
Definition ask {A} (f : nat -> A) : M A := fun c => (Ret (f (clock c)), tick c).

(** [for x in l: body(x)] *)
Fixpoint for_each {A} (body : A -> M unit) (l : list A) : M unit :=
  match l with
  | [] => mret tt
  | x :: l' => body x ;; for_each body l'
  end.

(** [l[i]] *)
Definition item {A} (l : list A) (i : nat) : res A :=
  match l !! i with
  | Some x => Ret x
  | None => Raise IndexError
  end.

(** Binding inside [res], for the code that touches no field of the cog. *)
Definition res_bind {A B} (r : res A) (k : A -> res B) : res B :=
  match r with
  | Ret a => k a
  | Raise e => Raise e
  end.

Definition lift {A} (r : res A) : M A := fun c => (r, c).

(** ** The cog *)

Definition HOST : string := "testflight.apple.com".
Definition join_url (app_id : string) : string :=
  "https://testflight.apple.com/join/" +:+ app_id.

(** [create_cache].  The query on [sqlite_master] compares the listed name
    with ['state'] letter for letter; [CREATE TABLE IF NOT EXISTS state] finds
    a table of that name whatever the case it was created with. *)
Definition create_cache (connection : File) : bool * File :=
  let existed_before :=
    e ← connection !! "state";
    if String.eqb (master_name e) "state" then Some (master_name e) else None in
  let connection' :=
    match connection !! "state" with
    | Some _ => connection
    | None => <["state" := mkStoredTable "state" ∅]> connection
    end in
  (bool_decide (existed_before = None), connection').

(** The settings the host hands to the cog. *)
Record Settings := mkSettings {
  s_watched_apps : list string;
  s_send_errors : bool;
  s_notification_channel_id : Z;
  s_filled_message : string;
  s_unfilled_message : string
}.

(** [__init__], up to the start of the timer: [file] is what [state.db]
    holds when it is opened, [sess] whether the base class has its HTTP
    session. *)
Definition init (file : File) (sess : bool) (s : Settings) : Cog :=
  let r := create_cache file in
  mkCog (tables (snd r)) (fst r) sess (s_watched_apps s) (s_send_errors s)
        (s_notification_channel_id s) (s_filled_message s)
        (s_unfilled_message s) [] 0 0.

(** [was_full] *)
Definition was_full (app_id : string) : M (option bool) :=
  d ← gets db_connection;
  match d !! "state" with
  | None => raise OperationalError
  | Some t => mret (t !! app_id)
  end.

(** [store_app_info]: [INSERT OR REPLACE INTO state]. *)
Definition store_app_info (info : TestFlightApp) : M unit :=
  d ← gets db_connection;
  match d !! "state" with
  | None => raise OperationalError
  | Some t =>
      modify (fun c =>
        count_change (set_db (<["state" := <[id info := is_full info]> t]> d) c))
  end.

(** The part of [fetch_app_info] after the page is parsed: every [find] that
    found nothing makes the next access raise. *)
Definition parse_page (app_id : string) (soup : Soup) : res TestFlightApp :=
  match status_div soup with
  | None => Raise AttributeError
  | Some div =>
      match span_text div with
      | None => Raise AttributeError
      | Some text =>
          let full := Py.contains "is full" (Py.lower text) in
          match app_icon div with
          | None => Raise TypeError
          | Some icon_element =>
              match attrs icon_element !! "style" with
              | None => Raise KeyError
              | Some style =>
                  res_bind (item (Py.split_max "url(" 1 style) 1) (fun rest =>
                  res_bind (item (Py.split ")" rest) 0) (fun icon =>
                  match head_title soup with
                  | None => Raise AttributeError
                  | Some None => Raise AttributeError
                  | Some (Some page_title) =>
                      let nm := Py.removesuffix " - TestFlight - Apple"
                                  (Py.removeprefix "Join the " page_title) in
                      Ret (mkApp full app_id nm icon)
                  end))
              end
          end
      end
  end.

(** [fetch_app_info] *)
Definition fetch_app_info (w : World) (app_id : string) : M (option TestFlightApp) :=
  sess ← gets session;
  if negb sess then raise AssertionError else
  modify (emit (HttpGet (join_url app_id)));;
  r ← ask (fun n => http_get w n (join_url app_id));
  match r with
  | TransportError => raise ClientError
  | Response status soup =>
      if negb (status =? 200)%Z then mret None
      else info ← lift (parse_page app_id soup); mret (Some info)
  end.

(** [bot.get_channel(id) or await bot.fetch_channel(id)]: whether a channel
    came back. *)
Definition notification_channel (w : World) : M bool :=
  cid ← gets notification_channel_id;
  cached ← ask (fun n => get_channel w n cid);
  if (cached : bool) then mret true else
  r ← ask (fun n => fetch_channel w n cid);
  match r with
  | ChannelFound => mret true
  | ChannelNone => mret false
  | ChannelRaises => raise DiscordException
  end.

Definition send_message (w : World) (m : Message) : M unit :=
  cid ← gets notification_channel_id;
  modify (emit (ChannelSend cid m));;
  ok ← ask (channel_send w);
  if (ok : bool) then mret tt else raise DiscordException.

Definition info_embed (app_info : TestFlightApp) : Embed :=
  mkEmbed (name app_info)
          (join_url (id app_info))
          ("TestFlight app is now **" +:+
             (if is_full app_info then "full" else "not full") +:+ "**")
          (if is_full app_info then Red else Green)
          (icon_url app_info).

(** [x or None] for a string *)
Definition or_None (s : string) : option string :=
  match s with
  | EmptyString => None
  | _ => Some s
  end.

(** [send_info] *)
Definition send_info (w : World) (app_info : TestFlightApp) : M unit :=
  modify (emit (NotifyChange app_info));;
  found ← notification_channel w;
  if negb found then modify (emit (LogError "Notification channel not found")) else
  filled ← gets filled_message;
  unfilled ← gets unfilled_message;
  send_message w
    (mkMessage (or_None (if is_full app_info then filled else unfilled))
               (Some (info_embed app_info))).

(** [send_error] *)
Definition send_error (w : World) (app_id : string) : M unit :=
  modify (emit (NotifyError app_id));;
  found ← notification_channel w;
  if negb found then modify (emit (LogError "Notification channel not found")) else
  send_message w
    (mkMessage (Some ("Failed to fetch app info for app `" +:+ app_id +:+ "`")) None).

(** [a != b] where [b] may be [None]: a bool never equals [None]. *)
Definition differs (a : bool) (b : option bool) : bool :=
  match b with
  | None => true
  | Some b' => negb (Bool.eqb a b')
  end.

(** The body of the [for] loop of [loop_callback].  [and] does not evaluate
    [was_full] when [fresh_start] is set. *)
Definition loop_body (w : World) (app_id : string) : M unit :=
  app_info ← fetch_app_info w app_id;
  match app_info with
  | None =>
      errs ← gets send_errors;
      if (errs : bool) then send_error w app_id else mret tt
  | Some app_info =>
      fresh ← gets fresh_start;
      changed ← (if (fresh : bool) then mret false
                 else old ← was_full app_id; mret (differs (is_full app_info) old));
      (if (changed : bool) then send_info w app_info else mret tt);;
      store_app_info app_info
  end.

(** [loop_callback] *)
Definition loop_callback (w : World) : M unit :=
  modify (emit (LogDebug "Checking TestFlight app statuses"));;
  watched ← gets watched_apps;
  for_each (loop_body w) watched.

(** [ctx.send(text)] *)
Definition reply (w : World) (text : string) : M unit :=
  modify (emit (CtxSend text));;
  ok ← ask (ctx_send w);
  if (ok : bool) then mret tt else raise DiscordException.

(** The first lines of [add_testflight] and [remove_testflight]: the id the
    command works on, [None] where the command answers "Invalid URL".  [or]
    stops at the first true operand. *)
Definition target_id (app_id : string) : res (option string) :=
  if Py.startswith "https://" app_id || Py.startswith "http://" app_id then
    let parts := Py.split_max "/" 4 app_id in
    res_bind (if (length parts <? 4)%nat then Ret true else
              res_bind (item parts 2) (fun host =>
              if negb (String.eqb host HOST) then Ret true else
              res_bind (item parts 3) (fun seg =>
              Ret (negb (String.eqb seg "join"))))) (fun invalid =>
    if (invalid : bool) then Ret None else
    res_bind (item parts 4) (fun app_id' => Ret (Some app_id')))
  else Ret (Some app_id).

(** [add_testflight] *)
Definition add_testflight (w : World) (app_id : string) : M unit :=
  target ← lift (target_id app_id);
  match target with
  | None => reply w "Invalid URL"
  | Some app_id =>
      watched ← gets watched_apps;
      if Py.list_in app_id watched then reply w "App already being watched" else
      info ← fetch_app_info w app_id;
      match info with
      | None => reply w "App not found"
      | Some info =>
          store_app_info info;;
          watched ← gets watched_apps;
          modify (set_watched (watched ++ [app_id]));;
          reply w ("Watching " +:+ name info)
      end
  end.

(** [remove_testflight] *)
Definition remove_testflight (w : World) (app_id : string) : M unit :=
  target ← lift (target_id app_id);
  match target with
  | None => reply w "Invalid URL"
  | Some app_id =>
      watched ← gets watched_apps;
      if negb (Py.list_in app_id watched) then reply w "App not being watched" else
      modify (set_watched (Py.list_remove app_id watched));;
      reply w "No longer watching app"
  end.

(** The [for] loop of [list_testflight]: [infos] is the list built so far. *)
Fixpoint list_loop (w : World) (ids : list string) (infos : list TestFlightApp)
  : M (list TestFlightApp) :=
  match ids with
  | [] => mret infos
  | app_id :: rest =>
      info ← fetch_app_info w app_id;
      match info with
      | None => list_loop w rest infos
      | Some info => store_app_info info;; list_loop w rest (infos ++ [info])
      end
  end.

Definition newline : string := String "010"%char EmptyString.

Definition app_line (info : TestFlightApp) : string :=
  "- " +:+ name info +:+ " (`" +:+ id info +:+ "`)".

(** [list_testflight] *)
Definition list_testflight (w : World) : M unit :=
  watched ← gets watched_apps;
  match watched with
  | [] => reply w "No apps being watched"
  | _ :: _ =>
      infos ← list_loop w watched [];
      reply w ("Watching apps:" +:+ newline +:+ Py.join newline (app_line <$> infos))
  end.

Definition set_channel (cid : Z) (c : Cog) : Cog :=
  mkCog (db_connection c) (fresh_start c) (session c) (watched_apps c)
        (send_errors c) cid (filled_message c) (unfilled_message c)
        (trace c) (clock c) (total_changes c).

(** [set_testflight_channel].  The channel that [fetch_channel] finds is
    taken to carry the id asked for, and its [mention] to be that id between
    [<#] and [>]. *)
Definition set_testflight_channel (w : World) (channel_id : Z) : M unit :=
  r ← ask (fun n => fetch_channel w n channel_id);
  match r with
  | ChannelRaises => raise DiscordException
  | ChannelNone => raise AttributeError
  | ChannelFound =>
      modify (set_channel channel_id);;
      reply w ("Notification channel set to <#" +:+ pretty channel_id +:+ ">")
  end.

(** One call of [loop_callback] per tick of the timer, each against the world
    of its time; the fields a cycle leaves are those the next one starts
    from. *)
Fixpoint run_cycles (ws : list World) (c : Cog) : Cog :=
  match ws with
  | [] => c
  | w :: ws' => run_cycles ws' (snd (loop_callback w c))
  end.

(** ** Vocabulary of the statements *)

(** The page lacks something [fetch_app_info] reads: the status div, its
    span, the icon element, its style attribute, a [url(] in the style, the
    head or its title. *)
Definition lacks_element (soup : Soup) : bool :=
  match status_div soup with
  | None => true
  | Some div =>
      match span_text div, app_icon div with
      | Some _, Some icon_element =>
          match attrs icon_element !! "style" with
          | Some style => negb (Py.contains "url(" style)
          | None => true
          end
      | _, _ => true
      end
  end
  || match head_title soup with
     | Some (Some _) => false
     | _ => true
     end.

(** The row of [app_id], when the table exists. *)
Definition stored (app_id : string) (c : Cog) : option bool :=
  db_connection c !! "state" ≫= fun t : gmap string bool => t !! app_id.

Definition has_status (app_id : string) (c : Cog) : Prop :=
  is_Some (stored app_id c).

(** [c'] agrees with [c] on the field [f]. *)
Definition same {X} (f : Cog -> X) : relation Cog :=
  fun c c' => f c' = f c.

(** A row of [app_id] present in [c] is still present in [c']. *)
Definition keeps_status (app_id : string) : relation Cog :=
  fun c c' => has_status app_id c -> has_status app_id c'.

(** Whatever its outcome, [m] leaves a state related to the one it started
    in. *)
Definition preserves {A} (R : relation Cog) (m : M A) : Prop :=
  forall c, R c (snd (m c)).

Definition is_notify_change (e : Event) : bool :=
  match e with
  | NotifyChange _ => true
  | _ => false
  end.

Definition is_log_error (e : Event) : bool :=
  match e with
  | LogError _ => true
  | _ => false
  end.

Definition no_slash (s : string) : bool := negb (Py.contains "/" s).

Definition is_scheme (scheme : string) : Prop :=
  scheme = "https:" \/ scheme = "http:".

(** The events [c'] has after those of [c]. *)
Definition new_events (c c' : Cog) : list Event :=
  drop (length (trace c)) (trace c').

(** [c'] has the events of [c] and maybe more after them. *)
Definition extends : relation Cog :=
  fun c c' => exists evs, trace c' = trace c ++ evs.

(** The pages requested, in order. *)
Definition requests (evs : list Event) : list string :=
  omap (fun e => match e with HttpGet target => Some target | _ => None end) evs.

(** The channels messages were sent to, in order. *)
Definition send_targets (evs : list Event) : list Z :=
  omap (fun e => match e with ChannelSend channel _ => Some channel | _ => None end) evs.

(** What a notification method leaves in the trace after the mark of its
    entry: nothing, the error line, or one message to [channel]. *)
Definition notification_tail (channel : Z) (tail : list Event) : Prop :=
  tail = [] \/
  tail = [LogError "Notification channel not found"] \/
  exists m, tail = [ChannelSend channel m].

(** The settings and fields no method but the commands may change. *)
Definition configuration (c : Cog) : list string * bool * Z * string * string * bool :=
  (watched_apps c, send_errors c, notification_channel_id c,
   filled_message c, unfilled_message c, session c).

(** The events of an iteration that got as far as its request. *)
Definition iteration_events (channel : Z) (app_id : string) (fresh : bool)
    (evs : list Event) : Prop :=
  exists rest,
    evs = HttpGet (join_url app_id) :: rest /\
    (rest = [] \/
     exists mark tail,
       rest = mark :: tail /\
       (mark = NotifyError app_id \/
        exists info, mark = NotifyChange info /\ id info = app_id /\ fresh = false) /\
       notification_tail channel tail).

(** What a cycle, or a part of one, over the ids [l] may add to the trace of
    a cog with these settings. *)
Definition cycle_events (channel : Z) (fresh : bool) (l : list string)
    (normal : bool) (evs : list Event) : Prop :=
  requests evs `prefix_of` (join_url <$> l) /\
  (normal = true -> requests evs = join_url <$> l) /\
  Forall (fun ch => ch = channel) (send_targets evs) /\
  length (send_targets evs) <= length l /\
  (fresh = true -> Forall (fun e => is_notify_change e = false) evs).

Definition returned {A} (r : res A) : bool :=
  match r with
  | Ret _ => true
  | Raise _ => false
  end.

(** The table [state] is in the file. *)
Definition table_ready (c : Cog) : Prop := is_Some (db_connection c !! "state").


(** ** Sample pages, worlds and cogs *)

Module Sample.

Definition icon : Element :=
  mkElement {[ "style" := "background-image: url(https://cdn.example/icon.png);" ]}.

Definition page (status_line : string) : Soup :=
  mkSoup (Some (mkStatusDiv (Some status_line) (Some icon)))
         (Some (Some "Join the Foo beta - TestFlight - Apple")).

Definition page_full : Soup := page "This beta is full.".
Definition page_open : Soup := page "Testing Apps with TestFlight".

(** A page from which [div#status] is gone. *)
Definition page_restructured : Soup :=
  mkSoup None (Some (Some "Join the Foo beta - TestFlight - Apple")).

(** Every request is answered [r], the channel is cached, every send is
    delivered. *)
Definition calm (r : HttpOutcome) : World :=
  mkWorld (fun _ _ => r) (fun _ _ => true) (fun _ _ => ChannelFound)
          (fun _ => true) (fun _ => true).

(** As [calm], but Discord refuses every message to the channel. *)
Definition unreachable (r : HttpOutcome) : World :=
  mkWorld (fun _ _ => r) (fun _ _ => true) (fun _ _ => ChannelFound)
          (fun _ => false) (fun _ => true).

Definition settings (watched : list string) : Settings :=
  mkSettings watched true 42 "" "".

(** A cog whose table holds [rows]. *)
Definition cog (fresh : bool) (rows : gmap string bool) (watched : list string) : Cog :=
  mkCog {[ "state" := rows ]} fresh true watched true 42 "" "" [] 0 0.

Definition foo (full : bool) (app_id : string) : TestFlightApp :=
  mkApp full app_id "Foo beta" "https://cdn.example/icon.png".

End Sample.

(** ** Running the embedding on concrete inputs *)

Example parse_full :
  parse_page "abc123" Sample.page_full = Ret (Sample.foo true "abc123").
Proof. reflexivity. Qed.

Example parse_open :
  parse_page "abc123" Sample.page_open = Ret (Sample.foo false "abc123").
Proof. reflexivity. Qed.

Example split_url :
  Py.split_max "/" 4 "https://testflight.apple.com/join/a/b" =
  ["https:"; ""; "testflight.apple.com"; "join"; "a/b"].
Proof. reflexivity. Qed.

Example split_overlap : Py.split "aa" "aaa" = [""; "a"].
Proof. reflexivity. Qed.

Example cycle_notifies_change :
  trace (snd (loop_callback (Sample.calm (Response 200 Sample.page_open))
                (Sample.cog false {[ "A" := true ]} ["A"]))) =
  [ LogDebug "Checking TestFlight app statuses";
    HttpGet "https://testflight.apple.com/join/A";
    NotifyChange (Sample.foo false "A");
    ChannelSend 42 (mkMessage None (Some (info_embed (Sample.foo false "A")))) ].
Proof. vm_compute. reflexivity. Qed.

Example cycle_stores :
  db_connection (snd (loop_callback (Sample.calm (Response 200 Sample.page_open))
                (Sample.cog false {[ "A" := true ]} ["A"]))) =
  {[ "state" := {[ "A" := false ]} ]}.
Proof. vm_compute. reflexivity. Qed.

(** ** The monad's equations *)

Lemma bind_unfold {A B} (m : M A) (k : A -> M B) c :
  (m ≫= k) c =
  match m c with
  | (Ret a, c') => k a c'
  | (Raise e, c') => (Raise e, c')
  end.
Proof. reflexivity. Qed.

Lemma bind_ret {A B} (m : M A) (k : A -> M B) c a c' :
  m c = (Ret a, c') -> (m ≫= k) c = k a c'.
Proof. intros H. rewrite bind_unfold, H. reflexivity. Qed.

Lemma bind_raise {A B} (m : M A) (k : A -> M B) c e c' :
  m c = (Raise e, c') -> (m ≫= k) c = (Raise e, c').
Proof. intros H. rewrite bind_unfold, H. reflexivity. Qed.

Lemma for_each_cons {A} (body : A -> M unit) x l c :
  for_each body (x :: l) c =
  match body x c with
  | (Ret _, c') => for_each body l c'
  | (Raise e, c') => (Raise e, c')
  end.
Proof. reflexivity. Qed.

Lemma for_each_app {A} (body : A -> M unit) l1 l2 c :
  for_each body (l1 ++ l2) c = (for_each body l1 ;; for_each body l2) c.
Proof.
  revert c. induction l1 as [|x l1 IH]; intros c.
  - reflexivity.
  - cbn [app]. rewrite bind_unfold, !for_each_cons.
    destruct (body x c) as [[[]|e] c1]; [|reflexivity].
    rewrite IH, bind_unfold. reflexivity.
Qed.

(** ** What the methods leave alone *)

Section Frame.

Variable R : relation Cog.
Hypothesis R_refl : forall c, R c c.
Hypothesis R_trans : forall c1 c2 c3, R c1 c2 -> R c2 c3 -> R c1 c3.
Hypothesis R_emit : forall e c, R c (emit e c).
Hypothesis R_tick : forall c, R c (tick c).

Lemma preserves_ret {A} (a : A) : preserves R (mret a).
Proof. intros c. apply R_refl. Qed.

Lemma preserves_raise {A} e : preserves R (raise e : M A).
Proof. intros c. apply R_refl. Qed.

Lemma preserves_gets {A} (f : Cog -> A) : preserves R (gets f).
Proof. intros c. apply R_refl. Qed.

Lemma preserves_lift {A} (r : res A) : preserves R (lift r).
Proof. intros c. apply R_refl. Qed.

Lemma preserves_emit e : preserves R (modify (emit e)).
Proof. intros c. apply R_emit. Qed.

Lemma preserves_ask {A} (f : nat -> A) : preserves R (ask f).
Proof. intros c. apply R_tick. Qed.

Lemma preserves_bind {A B} (m : M A) (k : A -> M B) :
  preserves R m -> (forall a, preserves R (k a)) -> preserves R (m ≫= k).
Proof.
  intros Hm Hk c. rewrite bind_unfold.
  specialize (Hm c). destruct (m c) as [[a|e] c1]; cbn [snd] in *.
  - eapply R_trans; [exact Hm | apply Hk].
  - exact Hm.
Qed.

Lemma preserves_for_each {A} (body : A -> M unit) l :
  (forall x, preserves R (body x)) -> preserves R (for_each body l).
Proof.
  intros Hb. induction l as [|x l IH].
  - apply preserves_ret.
  - cbn [for_each]. apply preserves_bind; [apply Hb | intros _; exact IH].
Qed.

Ltac frame :=
  repeat first
    [ apply preserves_ret | apply preserves_raise | apply preserves_gets
    | apply preserves_lift | apply preserves_emit | apply preserves_ask
    | apply preserves_bind; [|intros ?]
    | match goal with
      | |- preserves _ (if ?b then _ else _) => destruct b
      | |- preserves _ (match ?x with _ => _ end) => destruct x
      end ].

Lemma preserves_fetch_app_info w app_id : preserves R (fetch_app_info w app_id).
Proof. unfold fetch_app_info. frame. Qed.

Lemma preserves_notification_channel w : preserves R (notification_channel w).
Proof. unfold notification_channel. frame. Qed.

Lemma preserves_send_message w m : preserves R (send_message w m).
Proof. unfold send_message. frame. Qed.

Lemma preserves_send_info w info : preserves R (send_info w info).
Proof.
  unfold send_info. apply preserves_bind; [apply preserves_emit | intros _].
  apply preserves_bind; [apply preserves_notification_channel | intros found].
  destruct found; cbn [negb]; [|apply preserves_emit].
  frame.
Qed.

Lemma preserves_send_error w app_id : preserves R (send_error w app_id).
Proof.
  unfold send_error. apply preserves_bind; [apply preserves_emit | intros _].
  apply preserves_bind; [apply preserves_notification_channel | intros found].
  destruct found; cbn [negb]; [apply preserves_send_message | apply preserves_emit].
Qed.

Lemma preserves_reply w text : preserves R (reply w text).
Proof. unfold reply. frame. Qed.

Lemma preserves_was_full app_id : preserves R (was_full app_id).
Proof. unfold was_full. frame. Qed.

Hypothesis R_store : forall info, preserves R (store_app_info info).

Lemma preserves_loop_body w app_id : preserves R (loop_body w app_id).
Proof.
  unfold loop_body.
  apply preserves_bind; [apply preserves_fetch_app_info | intros [info|]].
  - apply preserves_bind; [apply preserves_gets | intros fresh].
    apply preserves_bind.
    { destruct fresh; [apply preserves_ret|].
      apply preserves_bind; [apply preserves_was_full | intros; apply preserves_ret]. }
    intros changed. apply preserves_bind; [|intros; apply R_store].
    destruct changed; [apply preserves_send_info | apply preserves_ret].
  - apply preserves_bind; [apply preserves_gets | intros errs].
    destruct errs; [apply preserves_send_error | apply preserves_ret].
Qed.

Lemma preserves_loop_callback w : preserves R (loop_callback w).
Proof.
  unfold loop_callback.
  apply preserves_bind; [apply preserves_emit | intros _].
  apply preserves_bind; [apply preserves_gets | intros watched].
  apply preserves_for_each. intros x. apply preserves_loop_body.
Qed.

End Frame.

Lemma same_refl {X} (f : Cog -> X) c : same f c c.
Proof. reflexivity. Qed.

Lemma same_trans {X} (f : Cog -> X) c1 c2 c3 :
  same f c1 c2 -> same f c2 c3 -> same f c1 c3.
Proof. unfold same. congruence. Qed.

Lemma store_app_info_run info c :
  store_app_info info c =
  match db_connection c !! "state" with
  | None => (Raise OperationalError, c)
  | Some t =>
      (Ret tt, count_change
                 (set_db (<["state" := <[id info := is_full info]> t]> (db_connection c)) c))
  end.
Proof.
  unfold store_app_info. rewrite bind_unfold. cbn [gets].
  destruct (db_connection c !! "state"); reflexivity.
Qed.

Lemma was_full_run app_id c :
  was_full app_id c =
  match db_connection c !! "state" with
  | None => (Raise OperationalError, c)
  | Some t => (Ret (t !! app_id), c)
  end.
Proof.
  unfold was_full. rewrite bind_unfold. cbn [gets].
  destruct (db_connection c !! "state"); reflexivity.
Qed.

Lemma store_keeps_fresh_start info : preserves (same fresh_start) (store_app_info info).
Proof.
  intros c. rewrite store_app_info_run.
  destruct (db_connection c !! "state"); reflexivity.
Qed.

Lemma store_keeps_watched info : preserves (same watched_apps) (store_app_info info).
Proof.
  intros c. rewrite store_app_info_run.
  destruct (db_connection c !! "state"); reflexivity.
Qed.

Lemma store_keeps_trace info : preserves (same trace) (store_app_info info).
Proof.
  intros c. rewrite store_app_info_run.
  destruct (db_connection c !! "state"); reflexivity.
Qed.

Lemma loop_callback_fresh_start w c :
  fresh_start (snd (loop_callback w c)) = fresh_start c.
Proof.
  apply (preserves_loop_callback (same fresh_start)).
  - apply same_refl.
  - apply same_trans.
  - reflexivity.
  - reflexivity.
  - apply store_keeps_fresh_start.
Qed.

Lemma run_cycles_fresh_start ws c :
  fresh_start (run_cycles ws c) = fresh_start c.
Proof.
  revert c. induction ws as [|w ws IH]; intros c; cbn [run_cycles].
  - reflexivity.
  - rewrite IH. apply loop_callback_fresh_start.
Qed.

Lemma fetch_keeps_db w app_id c :
  db_connection (snd (fetch_app_info w app_id c)) = db_connection c.
Proof.
  apply (preserves_fetch_app_info (same db_connection));
    first [apply same_refl | apply same_trans | reflexivity].
Qed.

Lemma fetch_keeps_fresh_start w app_id c :
  fresh_start (snd (fetch_app_info w app_id c)) = fresh_start c.
Proof.
  apply (preserves_fetch_app_info (same fresh_start));
    first [apply same_refl | apply same_trans | reflexivity].
Qed.

Lemma fetch_keeps_watched w app_id c :
  watched_apps (snd (fetch_app_info w app_id c)) = watched_apps c.
Proof.
  apply (preserves_fetch_app_info (same watched_apps));
    first [apply same_refl | apply same_trans | reflexivity].
Qed.

Lemma send_info_keeps_db w info c :
  db_connection (snd (send_info w info c)) = db_connection c.
Proof.
  apply (preserves_send_info (same db_connection));
    first [apply same_refl | apply same_trans | reflexivity].
Qed.

Lemma send_error_keeps_db w app_id c :
  db_connection (snd (send_error w app_id c)) = db_connection c.
Proof.
  apply (preserves_send_error (same db_connection));
    first [apply same_refl | apply same_trans | reflexivity].
Qed.

(** ** The table and the fresh-start flag *)


(** C1.  No cycle writes [fresh_start]: every cycle of a process runs with
    the value [__init__] gave it.  A process that opened a file without the
    table therefore keeps the flag set after its first cycle, and its second
    cycle stays silent although the app went from full to not full. *)
Theorem fresh_start_never_cleared :
  (forall ws c, fresh_start (run_cycles ws c) = fresh_start c) /\
  let c0 := init ∅ true (Sample.settings ["A"]) in
  let c1 := run_cycles [Sample.calm (Response 200 Sample.page_full)] c0 in
  let c2 := snd (loop_callback (Sample.calm (Response 200 Sample.page_open)) c1) in
  fresh_start c0 = true /\
  fresh_start c1 = true /\
  stored "A" c1 = Some true /\
  stored "A" c2 = Some false /\
  filter (fun e => is_notify_change e = true) (trace c2) = [].
Proof.
  split; [apply run_cycles_fresh_start|].
  vm_compute. repeat split; reflexivity.
Qed.

(** ** One fetch *)

Lemma fetch_app_info_run w app_id c :
  fetch_app_info w app_id c =
  if session c then
    let c1 := tick (emit (HttpGet (join_url app_id)) c) in
    match http_get w (clock c) (join_url app_id) with
    | TransportError => (Raise ClientError, c1)
    | Response status soup =>
        if (status =? 200)%Z then
          match parse_page app_id soup with
          | Ret info => (Ret (Some info), c1)
          | Raise e => (Raise e, c1)
          end
        else (Ret None, c1)
    end
  else (Raise AssertionError, c).
Proof.
  unfold fetch_app_info. rewrite bind_unfold. cbn [gets].
  destruct (session c); cbn [negb]; [|reflexivity].
  rewrite bind_unfold. cbn [modify]. rewrite bind_unfold. cbn [ask emit clock].
  destruct (http_get w (clock c) (join_url app_id)) as [|status soup]; [reflexivity|].
  destruct (status =? 200)%Z; cbn [negb]; [|reflexivity].
  rewrite bind_unfold. cbn [lift].
  destruct (parse_page app_id soup); reflexivity.
Qed.

Lemma parse_page_id app_id soup info :
  parse_page app_id soup = Ret info -> id info = app_id.
Proof.
  unfold parse_page, res_bind. intros H.
  repeat match type of H with
         | match ?x with _ => _ end = _ => destruct x; try discriminate H
         end.
  injection H as <-. reflexivity.
Qed.

(** A fetch that yields a record made one request, to the page of [app_id],
    and the record carries that id. *)
Lemma fetch_app_info_some w app_id c info c1 :
  fetch_app_info w app_id c = (Ret (Some info), c1) ->
  c1 = tick (emit (HttpGet (join_url app_id)) c) /\ id info = app_id.
Proof.
  rewrite fetch_app_info_run. destruct (session c); [|discriminate].
  cbv zeta. destruct (http_get w (clock c) (join_url app_id)) as [|status soup];
    [discriminate|].
  destruct (status =? 200)%Z; [|discriminate].
  destruct (parse_page app_id soup) as [info'|e] eqn:E; [|discriminate].
  intros H. injection H as <- <-. split; [reflexivity|].
  eapply parse_page_id, E.
Qed.

(** ** Notifications *)

Lemma differs_true a o : differs a o = true <-> o ≠ Some a.
Proof.
  destruct o as [b|]; cbn [differs].
  - destruct a, b; cbn; split; intros H; congruence.
  - split; [discriminate | reflexivity].
Qed.

Lemma differs_false a o : differs a o = false <-> o = Some a.
Proof.
  destruct o as [b|]; cbn [differs].
  - destruct a, b; cbn; split; intros H; congruence.
  - split; discriminate.
Qed.

Ltac run :=
  cbv [mbind M_bind mret M_ret gets modify ask raise lift];
  cbn [fst snd negb emit tick count_change set_db set_watched trace clock db_connection
       total_changes
       fresh_start session watched_apps send_errors notification_channel_id
       filled_message unfilled_message].

(** [send_info] first marks its entry; nothing it does afterwards is another
    entry, and when it raises it has logged no error. *)
Lemma send_info_trace w info c :
  exists evs,
    trace (snd (send_info w info c)) = trace c ++ NotifyChange info :: evs /\
    Forall (fun e => is_notify_change e = false) evs /\
    (forall e, fst (send_info w info c) = Raise e ->
               Forall (fun e => is_log_error e = false) evs).
Proof.
  unfold send_info, notification_channel, send_message. run.
  destruct (get_channel w (clock c) (notification_channel_id c)); run.
  - destruct (channel_send w (S (clock c))); run;
      rewrite <- app_assoc; eexists; (split; [reflexivity|]);
      split; intros; repeat constructor.
  - destruct (fetch_channel w (S (clock c)) (notification_channel_id c)); run.
    + destruct (channel_send w (S (S (clock c)))); run;
        rewrite <- app_assoc; eexists; (split; [reflexivity|]);
        split; intros; repeat constructor.
    + rewrite <- app_assoc. eexists. split; [reflexivity|].
      split; [repeat constructor | discriminate].
    + exists []. split; [reflexivity|]. split; intros; constructor.
Qed.

(** ** One iteration of the loop *)

(** After a fetch that yielded a record: the iteration stores it, and calls
    [send_info] first unless the flag is set or the row equals the new
    status. *)
Lemma loop_body_some w app_id c info c1 t :
  fetch_app_info w app_id c = (Ret (Some info), c1) ->
  db_connection c !! "state" = Some t ->
  loop_body w app_id c =
  if fresh_start c || negb (differs (is_full info) (t !! app_id))
  then store_app_info info c1
  else (send_info w info ;; store_app_info info) c1.
Proof.
  intros Hf Ht. unfold loop_body. rewrite (bind_ret _ _ _ _ _ Hf).
  apply fetch_app_info_some in Hf as [-> _].
  run.
  destruct (fresh_start c); cbn [orb].
  - reflexivity.
  - rewrite was_full_run. run. rewrite Ht.
    destruct (differs (is_full info) (t !! app_id)); cbn [negb]; reflexivity.
Qed.

(** After a fetch that yielded nothing: [send_error] if the setting asks for
    it, and no write to the table. *)
Lemma loop_body_none w app_id c c1 :
  fetch_app_info w app_id c = (Ret None, c1) ->
  loop_body w app_id c =
  if send_errors c then send_error w app_id c1 else (Ret tt, c1).
Proof.
  intros Hf. unfold loop_body. rewrite (bind_ret _ _ _ _ _ Hf).
  assert (send_errors c1 = send_errors c) as Hs.
  { change c1 with (snd (Ret (@None TestFlightApp), c1)). rewrite <- Hf.
    apply (preserves_fetch_app_info (same send_errors));
      first [apply same_refl | apply same_trans | reflexivity]. }
  run. rewrite Hs.
  destruct (send_errors c); reflexivity.
Qed.

(** C2, as the code has it.  In an iteration whose fetch yielded a record,
    [send_info] is called exactly when the flag is clear and the row of the id
    is not the new status, be it the other boolean or absent; the call is for
    the fetched record. *)
Theorem change_notification_iff w c app_id info c1 t :
  fetch_app_info w app_id c = (Ret (Some info), c1) ->
  db_connection c !! "state" = Some t ->
  exists evs,
    trace (snd (loop_body w app_id c)) = trace c1 ++ evs /\
    ((exists x, NotifyChange x ∈ evs) <->
       fresh_start c = false /\ t !! app_id ≠ Some (is_full info)) /\
    (forall x, NotifyChange x ∈ evs -> x = info).
Proof.
  intros Hf Ht. rewrite (loop_body_some _ _ _ _ _ _ Hf Ht).
  destruct (fresh_start c) eqn:Hfresh; cbn [orb].
  { exists []. rewrite (store_keeps_trace info c1), app_nil_r.
    split; [reflexivity|]. split.
    - split; [intros [x Hx]; inversion Hx | intros [? _]; discriminate].
    - intros x Hx. inversion Hx. }
  destruct (differs (is_full info) (t !! app_id)) eqn:Hd; cbn [negb].
  - destruct (send_info_trace w info c1) as (evs & Htr & Hno & _).
    exists (NotifyChange info :: evs). split.
    + rewrite bind_unfold.
      destruct (send_info w info c1) as [[[]|e] c2]; cbn [snd] in *.
      * rewrite (store_keeps_trace info c2). exact Htr.
      * exact Htr.
    + split.
      * split; [intros _ | intros _; exists info; left].
        split; [reflexivity | by apply differs_true].
      * intros x Hx. apply elem_of_cons in Hx as [Hx|Hx]; [congruence|].
        rewrite Forall_forall in Hno. apply Hno in Hx. discriminate.
  - exists []. rewrite (store_keeps_trace info c1), app_nil_r.
    split; [reflexivity|]. split.
    + split; [intros [x Hx]; inversion Hx|].
      intros [_ Hne]. apply differs_false in Hd. contradiction.
    + intros x Hx. inversion Hx.
Qed.

Lemma change_notification_iff_witness :
  let w := Sample.calm (Response 200 Sample.page_open) in
  let c := Sample.cog false {[ "A" := true ]} ["A"] in
  exists evs,
    trace (snd (loop_body w "A" c)) =
      trace (tick (emit (HttpGet (join_url "A")) c)) ++ evs /\
    ((exists x, NotifyChange x ∈ evs) <->
       fresh_start c = false /\
       ({[ "A" := true ]} : gmap string bool) !! "A" ≠ Some (is_full (Sample.foo false "A"))) /\
    (forall x, NotifyChange x ∈ evs -> x = Sample.foo false "A").
Proof.
  intros w c.
  apply (change_notification_iff w c "A" (Sample.foo false "A")
           (tick (emit (HttpGet (join_url "A")) c)) {[ "A" := true ]});
    vm_compute; reflexivity.
Defined.

(** C2, as the claim has it, fails: with the flag clear and no row for the
    id, the iteration calls [send_info]. *)
Lemma notification_without_old_status :
  let w := Sample.calm (Response 200 Sample.page_open) in
  let c := Sample.cog false ∅ ["A"] in
  fst (fetch_app_info w "A" c) = Ret (Some (Sample.foo false "A")) /\
  fresh_start c = false /\
  fst (was_full "A" c) = Ret None /\
  trace (snd (loop_body w "A" c)) =
    [ HttpGet "https://testflight.apple.com/join/A";
      NotifyChange (Sample.foo false "A");
      ChannelSend 42 (mkMessage None (Some (info_embed (Sample.foo false "A")))) ] /\
  ~ ((exists x, NotifyChange x ∈ trace (snd (loop_body w "A" c))) <->
     fresh_start c = false /\
     exists old, fst (was_full "A" c) = Ret (Some old) /\ old ≠ false).
Proof.
  intros w c.
  assert (trace (snd (loop_body w "A" c)) =
    [ HttpGet "https://testflight.apple.com/join/A";
      NotifyChange (Sample.foo false "A");
      ChannelSend 42 (mkMessage None (Some (info_embed (Sample.foo false "A")))) ])
    as Htr by (vm_compute; reflexivity).
  repeat split; try (vm_compute; reflexivity).
  rewrite Htr. intros [Hsent _].
  destruct Hsent as (_ & old & Hold & _).
  - exists (Sample.foo false "A"). apply elem_of_cons. right. apply elem_of_cons. by left.
  - vm_compute in Hold. discriminate.
Qed.



(** ** Splitting *)

Lemma split_go_nonempty sep b k s : Py.split_go sep b k s ≠ [].
Proof.
  revert b k. induction s as [|c s IH]; intros b k; cbn [Py.split_go].
  - discriminate.
  - destruct k as [|k]; [|apply IH].
    assert (forall l, Py.cons_head c l ≠ []) as Hc by (intros [|? ?]; discriminate).
    destruct b as [|b]; [apply Hc|].
    destruct (String.prefix sep (String c s)); [discriminate | apply Hc].
Qed.

(** Without an occurrence of the separator there is one piece. *)
Lemma split_go_absent sep b s :
  Py.contains sep s = false -> Py.split_go sep b 0 s = [s].
Proof.
  induction s as [|c s IH]; cbn [Py.contains Py.split_go]; intros H.
  - reflexivity.
  - apply orb_false_iff in H as [Hp Hc].
    destruct b as [|b]; [|rewrite Hp]; rewrite (IH Hc); reflexivity.
Qed.

(** With an occurrence and a cut allowed there are at least two. *)
Lemma split_go_present a sep b s :
  Py.contains (String a sep) s = true ->
  exists p q l, Py.split_go (String a sep) (S b) 0 s = p :: q :: l.
Proof.
  induction s as [|c s IH]; cbn [Py.contains Py.split_go]; intros H.
  - cbn in H. discriminate.
  - destruct (String.prefix (String a sep) (String c s)) eqn:Hp.
    + destruct (Py.split_go (String a sep) b (String.length (String a sep) - 1) s)
        as [|q l] eqn:E; [by apply split_go_nonempty in E|].
      eauto.
    + cbn [orb] in H. destruct (IH H) as (p & q & l & ->).
      cbn [Py.cons_head]. eauto.
Qed.

(** ** Parsing the page *)

Lemma parse_page_lacking app_id soup :
  lacks_element soup = true -> exists e, parse_page app_id soup = Raise e.
Proof.
  unfold lacks_element, parse_page. intros H.
  destruct (status_div soup) as [div|]; [|eauto].
  destruct (span_text div) as [text|]; [|eauto].
  destruct (app_icon div) as [icon_element|]; [|eauto].
  destruct (attrs icon_element !! "style") as [style|]; [|eauto].
  destruct (Py.contains "url(" style) eqn:Hurl.
  - cbn [negb orb] in H.
    destruct (split_go_present _ _ 0 _ Hurl) as (p & q & l & Hs).
    unfold Py.split_max. rewrite Hs. cbn [item lookup list_lookup res_bind].
    unfold Py.split.
    destruct (Py.split_go ")" (String.length q) 0 q) as [|icon l'] eqn:E;
      [by apply split_go_nonempty in E|].
    cbn [item lookup list_lookup res_bind].
    destruct (head_title soup) as [[ttl|]|]; [discriminate | eauto | eauto].
  - unfold Py.split_max. rewrite (split_go_absent _ _ _ Hurl).
    cbn. eauto.
Qed.

Lemma parse_page_complete app_id soup :
  lacks_element soup = false -> exists info, parse_page app_id soup = Ret info.
Proof.
  unfold lacks_element, parse_page. intros H.
  apply orb_false_iff in H as [H1 H2].
  destruct (status_div soup) as [div|]; [|discriminate].
  destruct (span_text div) as [text|]; [|discriminate].
  destruct (app_icon div) as [icon_element|]; [|discriminate].
  destruct (attrs icon_element !! "style") as [style|]; [|discriminate].
  apply negb_false_iff in H1.
  destruct (split_go_present _ _ 0 _ H1) as (p & q & l & Hs).
  unfold Py.split_max. rewrite Hs. cbn [item lookup list_lookup res_bind].
  unfold Py.split.
  destruct (Py.split_go ")" (String.length q) 0 q) as [|icon l'] eqn:E;
    [by apply split_go_nonempty in E|].
  cbn [item lookup list_lookup res_bind].
  destruct (head_title soup) as [[ttl|]|]; [eauto | discriminate | discriminate].
Qed.

(** ** Failures inside a cycle *)

(** C3.  On a page that lacks one of the elements read, [fetch_app_info]
    raises instead of returning [None], and the exception leaves the loop:
    the ids after this one are not processed. *)
Theorem missing_element_raises w c app_id soup rest :
  session c = true ->
  http_get w (clock c) (join_url app_id) = Response 200 soup ->
  lacks_element soup = true ->
  exists e,
    fetch_app_info w app_id c = (Raise e, tick (emit (HttpGet (join_url app_id)) c)) /\
    for_each (loop_body w) (app_id :: rest) c =
      (Raise e, tick (emit (HttpGet (join_url app_id)) c)).
Proof.
  intros Hs Hh Hl.
  destruct (parse_page_lacking app_id soup Hl) as [e He].
  assert (fetch_app_info w app_id c =
          (Raise e, tick (emit (HttpGet (join_url app_id)) c))) as Hf.
  { rewrite fetch_app_info_run, Hs. cbv zeta. rewrite Hh. cbn [Z.eqb Pos.eqb].
    rewrite He. reflexivity. }
  exists e. split; [exact Hf|].
  rewrite for_each_cons. unfold loop_body. rewrite (bind_raise _ _ _ _ _ Hf).
  reflexivity.
Qed.

Lemma missing_element_raises_witness :
  let w := Sample.calm (Response 200 Sample.page_restructured) in
  let c := Sample.cog false {[ "A" := true ]} ["A"; "B"] in
  exists e,
    fetch_app_info w "A" c = (Raise e, tick (emit (HttpGet (join_url "A")) c)) /\
    for_each (loop_body w) ["A"; "B"] c =
      (Raise e, tick (emit (HttpGet (join_url "A")) c)).
Proof.
  intros w c.
  apply (missing_element_raises w c "A" Sample.page_restructured ["B"]);
    vm_compute; reflexivity.
Defined.

(** C6.  A transport error is not turned into [None]: [fetch_app_info]
    raises, no [send_error] is called, and the loop is left before the ids
    after this one; the table is as it was. *)
Theorem transport_error_aborts_cycle w c app_id rest :
  session c = true ->
  http_get w (clock c) (join_url app_id) = TransportError ->
  fetch_app_info w app_id c =
    (Raise ClientError, tick (emit (HttpGet (join_url app_id)) c)) /\
  for_each (loop_body w) (app_id :: rest) c =
    (Raise ClientError, tick (emit (HttpGet (join_url app_id)) c)) /\
  db_connection (snd (for_each (loop_body w) (app_id :: rest) c)) = db_connection c.
Proof.
  intros Hs Hh.
  assert (fetch_app_info w app_id c =
          (Raise ClientError, tick (emit (HttpGet (join_url app_id)) c))) as Hf.
  { rewrite fetch_app_info_run, Hs. cbv zeta. rewrite Hh. reflexivity. }
  assert (for_each (loop_body w) (app_id :: rest) c =
          (Raise ClientError, tick (emit (HttpGet (join_url app_id)) c))) as Hl.
  { rewrite for_each_cons. unfold loop_body. rewrite (bind_raise _ _ _ _ _ Hf).
    reflexivity. }
  split; [exact Hf|]. split; [exact Hl|]. rewrite Hl. reflexivity.
Qed.

Lemma transport_error_aborts_cycle_witness :
  let w := Sample.calm TransportError in
  let c := Sample.cog false {[ "A" := true ]} ["A"; "B"] in
  fetch_app_info w "A" c =
    (Raise ClientError, tick (emit (HttpGet (join_url "A")) c)) /\
  for_each (loop_body w) ["A"; "B"] c =
    (Raise ClientError, tick (emit (HttpGet (join_url "A")) c)) /\
  db_connection (snd (for_each (loop_body w) ["A"; "B"] c)) = db_connection c.
Proof.
  intros w c.
  apply (transport_error_aborts_cycle w c "A" ["B"]); vm_compute; reflexivity.
Defined.

(** X6.  The other way a fetch fails: a response whose status is not 200 yields
    [None]; the iteration then calls [send_error] when the setting asks for
    it, writes nothing to the table, and, unless that call raises, the loop
    goes on with the next id. *)
Lemma bad_status_skips_store w c app_id status soup :
  session c = true ->
  http_get w (clock c) (join_url app_id) = Response status soup ->
  status ≠ 200%Z ->
  let c1 := tick (emit (HttpGet (join_url app_id)) c) in
  fetch_app_info w app_id c = (Ret None, c1) /\
  loop_body w app_id c =
    (if send_errors c then send_error w app_id c1 else (Ret tt, c1)) /\
  db_connection (snd (loop_body w app_id c)) = db_connection c.
Proof.
  intros Hs Hh Hne c1.
  assert (fetch_app_info w app_id c = (Ret None, c1)) as Hf.
  { rewrite fetch_app_info_run, Hs. cbv zeta. rewrite Hh.
    destruct (Z.eqb_spec status 200); [contradiction | reflexivity]. }
  split; [exact Hf|]. rewrite (loop_body_none _ _ _ _ Hf).
  split; [reflexivity|].
  destruct (send_errors c); [|reflexivity].
  rewrite send_error_keeps_db. reflexivity.
Qed.

(** C4.  A send that Discord refuses raises out of [send_info]; the
    exception leaves the loop, so the upsert of this id is skipped and the
    ids after it are not processed; no error line is logged. *)
Theorem delivery_failure_aborts_cycle w c app_id info c1 t e c2 rest :
  fetch_app_info w app_id c = (Ret (Some info), c1) ->
  db_connection c !! "state" = Some t ->
  fresh_start c = false ->
  t !! app_id ≠ Some (is_full info) ->
  send_info w info c1 = (Raise e, c2) ->
  loop_body w app_id c = (Raise e, c2) /\
  for_each (loop_body w) (app_id :: rest) c = (Raise e, c2) /\
  db_connection c2 = db_connection c /\
  exists evs, trace c2 = trace c1 ++ evs /\
              Forall (fun ev => is_log_error ev = false) evs.
Proof.
  intros Hf Ht Hfresh Hrow Hsend.
  assert (loop_body w app_id c = (Raise e, c2)) as Hbody.
  { rewrite (loop_body_some _ _ _ _ _ _ Hf Ht), Hfresh.
    apply differs_true in Hrow. rewrite Hrow. cbn [orb negb].
    apply bind_raise, Hsend. }
  split; [exact Hbody|]. split; [by rewrite for_each_cons, Hbody|]. split.
  - change c2 with (snd (@Raise unit e, c2)). rewrite <- Hsend, send_info_keeps_db.
    change c1 with (snd (Ret (Some info), c1)). rewrite <- Hf. apply fetch_keeps_db.
  - destruct (send_info_trace w info c1) as (evs & Htr & _ & Hlog).
    rewrite Hsend in Htr, Hlog. cbn [fst snd] in Htr, Hlog.
    exists (NotifyChange info :: evs). split; [exact Htr|].
    constructor; [reflexivity | by apply (Hlog e)].
Qed.

Lemma delivery_failure_aborts_cycle_witness :
  let w := Sample.unreachable (Response 200 Sample.page_open) in
  let c := Sample.cog false {[ "A" := true ]} ["A"; "B"] in
  let c1 := tick (emit (HttpGet (join_url "A")) c) in
  let c2 := snd (send_info w (Sample.foo false "A") c1) in
  loop_body w "A" c = (Raise DiscordException, c2) /\
  for_each (loop_body w) ["A"; "B"] c = (Raise DiscordException, c2) /\
  db_connection c2 = db_connection c /\
  exists evs, trace c2 = trace c1 ++ evs /\
              Forall (fun ev => is_log_error ev = false) evs.
Proof.
  intros w c c1 c2.
  apply (delivery_failure_aborts_cycle w c "A" (Sample.foo false "A") c1
           {[ "A" := true ]} DiscordException c2 ["B"]);
    vm_compute; first [reflexivity | discriminate].
Defined.

(** X8.  The same for the error notification: when [send_error] raises, so does
    the loop. *)
Lemma error_delivery_failure_aborts_cycle w c app_id c1 e c2 rest :
  fetch_app_info w app_id c = (Ret None, c1) ->
  send_errors c = true ->
  send_error w app_id c1 = (Raise e, c2) ->
  for_each (loop_body w) (app_id :: rest) c = (Raise e, c2).
Proof.
  intros Hf Herrs Hsend.
  rewrite for_each_cons, (loop_body_none _ _ _ _ Hf), Herrs, Hsend. reflexivity.
Qed.

Example refused_send_skips_store :
  let w := Sample.unreachable (Response 200 Sample.page_open) in
  let c := Sample.cog false {[ "A" := true ]} ["A"; "B"] in
  fst (loop_callback w c) = Raise DiscordException /\
  stored "A" (snd (loop_callback w c)) = Some true /\
  trace (snd (loop_callback w c)) =
    [ LogDebug "Checking TestFlight app statuses";
      HttpGet "https://testflight.apple.com/join/A";
      NotifyChange (Sample.foo false "A");
      ChannelSend 42 (mkMessage None (Some (info_embed (Sample.foo false "A")))) ].
Proof. vm_compute. repeat split; reflexivity. Qed.

(** The only delivery problem that is logged and not raised: no channel
    object came back. *)
Example missing_channel_is_logged :
  let w := mkWorld (fun _ _ => Response 200 Sample.page_open) (fun _ _ => false)
                   (fun _ _ => ChannelNone) (fun _ => true) (fun _ => true) in
  let c := Sample.cog false {[ "A" := true ]} ["A"] in
  fst (loop_callback w c) = Ret tt /\
  stored "A" (snd (loop_callback w c)) = Some false /\
  trace (snd (loop_callback w c)) =
    [ LogDebug "Checking TestFlight app statuses";
      HttpGet "https://testflight.apple.com/join/A";
      NotifyChange (Sample.foo false "A");
      LogError "Notification channel not found" ].
Proof. vm_compute. repeat split; reflexivity. Qed.

(** ** The [add] command *)

Lemma split_go_exhausted sep s : Py.split_go sep 0 0 s = [s].
Proof.
  induction s as [|c s IH]; cbn [Py.split_go]; [reflexivity|].
  rewrite IH. reflexivity.
Qed.

Lemma prefix_nil s : String.prefix "" s = true.
Proof. destruct s; reflexivity. Qed.

Lemma prefix_cons_same a p s :
  String.prefix (String a p) (String a s) = String.prefix p s.
Proof. cbn [String.prefix]. destruct (ascii_dec a a); [reflexivity | contradiction]. Qed.

Lemma prefix_cons_diff a b p s :
  a ≠ b -> String.prefix (String a p) (String b s) = false.
Proof. intros H. cbn [String.prefix]. destruct (ascii_dec a b); [contradiction | reflexivity]. Qed.

Lemma prefix_app p s : String.prefix p (p +:+ s) = true.
Proof.
  induction p as [|a p IH]; [apply prefix_nil|].
  change (String a p +:+ s) with (String a (p +:+ s)).
  rewrite prefix_cons_same. exact IH.
Qed.

(** A piece without a slash, followed by a slash, is cut off whole. *)
Lemma split_go_piece a b r :
  no_slash a = true ->
  Py.split_go "/" (S b) 0 (a +:+ String "/" r) = a :: Py.split_go "/" b 0 r.
Proof.
  unfold no_slash. rewrite negb_true_iff.
  induction a as [|c a IH]; intros H.
  - change ("" +:+ String "/" r) with (String "/" r). cbn [Py.split_go].
    rewrite prefix_cons_same, prefix_nil. reflexivity.
  - cbn [Py.contains] in H. apply orb_false_iff in H as [Hp Hc].
    change (String c a +:+ String "/" r) with (String c (a +:+ String "/" r)).
    cbn [Py.split_go].
    destruct (ascii_dec "/" c) as [<-|Hne].
    + rewrite prefix_cons_same, prefix_nil in Hp. discriminate.
    + rewrite (prefix_cons_diff _ _ _ _ Hne), (IH Hc). reflexivity.
Qed.

Lemma startswith_scheme scheme s :
  is_scheme scheme ->
  Py.startswith "https://" (scheme +:+ "//" +:+ s)
  || Py.startswith "http://" (scheme +:+ "//" +:+ s) = true.
Proof.
  unfold Py.startswith. intros [-> | ->].
  - change ("https:" +:+ "//" +:+ s) with ("https://" +:+ s).
    rewrite prefix_app. reflexivity.
  - change ("http:" +:+ "//" +:+ s) with ("http://" +:+ s).
    rewrite (prefix_app "http://"). apply orb_true_r.
Qed.

Lemma split_go_last a b :
  no_slash a = true -> Py.split_go "/" b 0 a = [a].
Proof.
  unfold no_slash. rewrite negb_true_iff. apply split_go_absent.
Qed.

(** The parts of a URL with a host and one path segment more. *)
Lemma target_id_url scheme host seg rest :
  is_scheme scheme -> no_slash host = true -> no_slash seg = true ->
  target_id (scheme +:+ "//" +:+ host +:+ "/" +:+ seg +:+ "/" +:+ rest) =
  if String.eqb host HOST && String.eqb seg "join" then Ret (Some rest) else Ret None.
Proof.
  intros Hs Hh Hg. unfold target_id.
  rewrite (startswith_scheme _ _ Hs).
  assert (Py.split_max "/" 4 (scheme +:+ "//" +:+ host +:+ "/" +:+ seg +:+ "/" +:+ rest)
          = [scheme; ""; host; seg; rest]) as ->.
  { unfold Py.split_max.
    change (scheme +:+ "//" +:+ host +:+ "/" +:+ seg +:+ "/" +:+ rest)
      with (scheme +:+ String "/" ("" +:+ String "/"
             (host +:+ String "/" (seg +:+ String "/" rest)))).
    rewrite split_go_piece by (destruct Hs as [-> | ->]; reflexivity).
    rewrite split_go_piece by reflexivity.
    rewrite (split_go_piece host) by exact Hh.
    rewrite (split_go_piece seg) by exact Hg.
    rewrite split_go_exhausted. reflexivity. }
  cbn [length Nat.ltb Nat.leb item lookup list_lookup res_bind].
  destruct (String.eqb host HOST); cbn [negb andb res_bind]; [|reflexivity].
  destruct (String.eqb seg "join"); reflexivity.
Qed.

(** A URL that stops after its first path segment: with the right host and
    segment the list has four parts and [parts[4]] raises. *)
Lemma target_id_no_id scheme host seg :
  is_scheme scheme -> no_slash host = true -> no_slash seg = true ->
  target_id (scheme +:+ "//" +:+ host +:+ "/" +:+ seg) =
  if String.eqb host HOST && String.eqb seg "join" then Raise IndexError else Ret None.
Proof.
  intros Hs Hh Hg. unfold target_id.
  rewrite (startswith_scheme _ _ Hs).
  assert (Py.split_max "/" 4 (scheme +:+ "//" +:+ host +:+ "/" +:+ seg)
          = [scheme; ""; host; seg]) as ->.
  { unfold Py.split_max.
    change (scheme +:+ "//" +:+ host +:+ "/" +:+ seg)
      with (scheme +:+ String "/" ("" +:+ String "/" (host +:+ String "/" seg))).
    rewrite split_go_piece by (destruct Hs as [-> | ->]; reflexivity).
    rewrite split_go_piece by reflexivity.
    rewrite (split_go_piece host) by exact Hh.
    rewrite (split_go_last seg) by exact Hg. reflexivity. }
  cbn [length Nat.ltb Nat.leb item lookup list_lookup res_bind].
  destruct (String.eqb host HOST); cbn [negb andb res_bind]; [|reflexivity].
  destruct (String.eqb seg "join"); reflexivity.
Qed.

(** A URL that stops after the host. *)
Lemma target_id_bare_host scheme host :
  is_scheme scheme -> no_slash host = true ->
  target_id (scheme +:+ "//" +:+ host) = Ret None.
Proof.
  intros Hs Hh. unfold target_id.
  rewrite (startswith_scheme _ _ Hs).
  assert (Py.split_max "/" 4 (scheme +:+ "//" +:+ host) = [scheme; ""; host]) as ->.
  { unfold Py.split_max.
    change (scheme +:+ "//" +:+ host)
      with (scheme +:+ String "/" ("" +:+ String "/" host)).
    rewrite split_go_piece by (destruct Hs as [-> | ->]; reflexivity).
    rewrite split_go_piece by reflexivity.
    rewrite (split_go_last host) by exact Hh. reflexivity. }
  reflexivity.
Qed.

Lemma reply_run w text c :
  reply w text c =
  (if ctx_send w (clock c) then Ret tt else Raise DiscordException,
   tick (emit (CtxSend text) c)).
Proof. unfold reply. run. destruct (ctx_send w (clock c)); reflexivity. Qed.

Lemma add_testflight_invalid w input c :
  target_id input = Ret None ->
  add_testflight w input c = reply w "Invalid URL" c.
Proof. intros H. unfold add_testflight. run. rewrite H. reflexivity. Qed.

(** The path of [add_testflight] on which the app is added: the upsert
    happens in [c1], whose watched list is still the old one, and the append
    comes after it. *)
Lemma add_testflight_success w input app_id c info c1 t :
  target_id input = Ret (Some app_id) ->
  app_id ∉ watched_apps c ->
  fetch_app_info w app_id c = (Ret (Some info), c1) ->
  db_connection c !! "state" = Some t ->
  let c2 :=
    count_change
      (set_db (<["state" := <[app_id := is_full info]> t]> (db_connection c)) c1) in
  store_app_info info c1 = (Ret tt, c2) /\
  add_testflight w input c =
    reply w ("Watching " +:+ name info) (set_watched (watched_apps c ++ [app_id]) c2).
Proof.
  intros Ht Hw Hf Hdb c2.
  pose proof (fetch_app_info_some _ _ _ _ _ Hf) as [Hc1 Hid].
  assert (store_app_info info c1 = (Ret tt, c2)) as Hstore.
  { rewrite store_app_info_run. subst c1 c2. run. rewrite Hdb, Hid. reflexivity. }
  split; [exact Hstore|].
  unfold add_testflight. run. rewrite Ht.
  unfold Py.list_in. rewrite (bool_decide_eq_false_2 _ Hw).
  rewrite Hf, Hstore. subst c1 c2. run. reflexivity.
Qed.

Example url_without_id_raises :
  target_id "https://testflight.apple.com/join" = Raise IndexError.
Proof. reflexivity. Qed.

(** C5, as the code has it.  [add] takes a raw id as it is, and from a URL
    with scheme https or http, host testflight.apple.com and first path
    segment join it takes all that follows [/join/]; a URL with another host
    or another first segment, or with no path, is answered "Invalid URL" and
    changes neither the watched list nor the table. *)
Theorem add_accepts_testflight_urls :
  (forall scheme app_id, is_scheme scheme ->
     target_id (scheme +:+ "//testflight.apple.com/join/" +:+ app_id) = Ret (Some app_id)) /\
  (forall input,
     Py.startswith "https://" input = false -> Py.startswith "http://" input = false ->
     target_id input = Ret (Some input)) /\
  (forall scheme host seg rest,
     is_scheme scheme -> no_slash host = true -> no_slash seg = true ->
     host ≠ HOST \/ seg ≠ "join" ->
     target_id (scheme +:+ "//" +:+ host +:+ "/" +:+ seg +:+ "/" +:+ rest) = Ret None) /\
  (forall scheme host seg,
     is_scheme scheme -> no_slash host = true -> no_slash seg = true ->
     host ≠ HOST \/ seg ≠ "join" ->
     target_id (scheme +:+ "//" +:+ host +:+ "/" +:+ seg) = Ret None) /\
  (forall scheme host,
     is_scheme scheme -> no_slash host = true ->
     target_id (scheme +:+ "//" +:+ host) = Ret None) /\
  (forall w input c,
     target_id input = Ret None ->
     add_testflight w input c = reply w "Invalid URL" c /\
     trace (snd (add_testflight w input c)) = trace c ++ [CtxSend "Invalid URL"] /\
     watched_apps (snd (add_testflight w input c)) = watched_apps c /\
     db_connection (snd (add_testflight w input c)) = db_connection c) /\
  (forall w input app_id c info c1 t,
     target_id input = Ret (Some app_id) ->
     app_id ∉ watched_apps c ->
     fetch_app_info w app_id c = (Ret (Some info), c1) ->
     db_connection c !! "state" = Some t ->
     watched_apps (snd (add_testflight w input c)) = watched_apps c ++ [app_id]) /\
  target_id "https://testflight.apple.com/join/abc123" = Ret (Some "abc123") /\
  target_id "https://wrong-host.com/join/abc123" = Ret None.
Proof.
  repeat apply conj.
  - intros scheme app_id Hs.
    change (scheme +:+ "//testflight.apple.com/join/" +:+ app_id)
      with (scheme +:+ "//" +:+ HOST +:+ "/" +:+ "join" +:+ "/" +:+ app_id).
    rewrite target_id_url by (exact Hs || reflexivity). reflexivity.
  - intros input H1 H2. unfold target_id. rewrite H1, H2. reflexivity.
  - intros scheme host seg rest Hs Hh Hg Hne.
    rewrite target_id_url by assumption.
    destruct (String.eqb_spec host HOST) as [->|]; [|reflexivity].
    destruct (String.eqb_spec seg "join") as [->|]; [|reflexivity].
    destruct Hne; contradiction.
  - intros scheme host seg Hs Hh Hg Hne.
    rewrite target_id_no_id by assumption.
    destruct (String.eqb_spec host HOST) as [->|]; [|reflexivity].
    destruct (String.eqb_spec seg "join") as [->|]; [|reflexivity].
    destruct Hne; contradiction.
  - apply target_id_bare_host.
  - intros w input c H. rewrite (add_testflight_invalid _ _ _ H), reply_run.
    repeat split; reflexivity.
  - intros w input app_id c info c1 t Ht Hw Hf Hdb.
    destruct (add_testflight_success _ _ _ _ _ _ _ Ht Hw Hf Hdb) as [_ ->].
    rewrite reply_run. reflexivity.
  - reflexivity.
  - reflexivity.
Qed.

(** C5, as the claim has it, fails: the URL on example.com is answered
    "Invalid URL" and nothing is watched, and a URL that is not https is
    accepted. *)
Lemma add_rejects_other_hosts :
  let w := Sample.calm (Response 200 Sample.page_open) in
  let c := Sample.cog false ∅ [] in
  target_id "https://example.com/join/abc123" = Ret None /\
  trace (snd (add_testflight w "https://example.com/join/abc123" c)) =
    [CtxSend "Invalid URL"] /\
  watched_apps (snd (add_testflight w "https://example.com/join/abc123" c)) = [] /\
  target_id "http://testflight.apple.com/join/abc123" = Ret (Some "abc123") /\
  watched_apps (snd (add_testflight w "http://testflight.apple.com/join/abc123" c)) =
    ["abc123"].
Proof. vm_compute. repeat split; reflexivity. Qed.

(** ** Rows are never deleted *)

Lemma keeps_status_store app_id info :
  preserves (keeps_status app_id) (store_app_info info).
Proof.
  intros c. rewrite store_app_info_run. unfold keeps_status, has_status, stored.
  destruct (db_connection c !! "state") as [t|] eqn:E; cbn [snd]; [|by rewrite E].
  cbn [count_change set_db db_connection]. rewrite lookup_insert_eq. cbn.
  intros Hrow. destruct (decide (id info = app_id)) as [->|Hne].
  - rewrite lookup_insert_eq. eauto.
  - rewrite lookup_insert_ne by exact Hne. exact Hrow.
Qed.

Lemma keeps_status_loop_body app_id w x :
  preserves (keeps_status app_id) (loop_body w x).
Proof.
  apply preserves_loop_body.
  - intros c H. exact H.
  - intros c1 c2 c3 H12 H23 H. apply H23, H12, H.
  - intros e c H. exact H.
  - intros c H. exact H.
  - apply keeps_status_store.
Qed.

Lemma keeps_status_cycle_prefix app_id w pre :
  preserves (keeps_status app_id) (for_each (loop_body w) pre).
Proof.
  apply preserves_for_each.
  - intros c H. exact H.
  - intros c1 c2 c3 H12 H23 H. apply H23, H12, H.
  - intros x. apply keeps_status_loop_body.
Qed.

(** When the table is missing the upsert of [add_testflight] raises, and
    the command ends there: nothing has been appended. *)
Lemma add_testflight_store_raises w input app_id c info c1 :
  target_id input = Ret (Some app_id) ->
  app_id ∉ watched_apps c ->
  fetch_app_info w app_id c = (Ret (Some info), c1) ->
  db_connection c !! "state" = None ->
  add_testflight w input c = (Raise OperationalError, c1).
Proof.
  intros Ht Hw Hf Hdb.
  pose proof (fetch_app_info_some _ _ _ _ _ Hf) as [Hc1 _].
  unfold add_testflight. run. rewrite Ht.
  unfold Py.list_in. rewrite (bool_decide_eq_false_2 _ Hw).
  rewrite Hf, store_app_info_run. subst c1. run. rewrite Hdb. reflexivity.
Qed.

(** C10.  When [add] adds the app, the upsert of the fetched status comes
    first and the append after it.  The command is the upsert, then the
    append, then the reply, run from the state the fetch left: on a
    connection without the table the upsert raises and the id is not
    appended; with the table the upsert is done in a state whose watched list
    is still the old one, the id is appended after it, the command leaves the
    row in the table, and the row is still there however much of a later
    cycle runs before the id comes up. *)
Theorem add_stores_before_watching w input app_id c info c1 :
  target_id input = Ret (Some app_id) ->
  app_id ∉ watched_apps c ->
  fetch_app_info w app_id c = (Ret (Some info), c1) ->
  let c' := snd (add_testflight w input c) in
  watched_apps c1 = watched_apps c /\
  add_testflight w input c =
    (store_app_info info;;
     modify (set_watched (watched_apps c ++ [app_id]));;
     reply w ("Watching " +:+ name info)) c1 /\
  match db_connection c !! "state" with
  | None =>
      store_app_info info c1 = (Raise OperationalError, c1) /\
      add_testflight w input c = (Raise OperationalError, c1) /\
      watched_apps c' = watched_apps c
  | Some t =>
      let c2 :=
        count_change
          (set_db (<["state" := <[app_id := is_full info]> t]> (db_connection c)) c1) in
      store_app_info info c1 = (Ret tt, c2) /\
      watched_apps c2 = watched_apps c /\
      stored app_id c2 = Some (is_full info) /\
      total_changes c2 = S (total_changes c) /\
      add_testflight w input c =
        reply w ("Watching " +:+ name info)
          (set_watched (watched_apps c ++ [app_id]) c2) /\
      watched_apps c' = watched_apps c ++ [app_id] /\
      stored app_id c' = Some (is_full info) /\
      (forall w' pre, has_status app_id (snd (for_each (loop_body w') pre c')))
  end.
Proof.
  intros Ht Hw Hf c'.
  pose proof (fetch_app_info_some _ _ _ _ _ Hf) as [Hc1 Hid].
  assert (watched_apps c1 = watched_apps c) as Hw1 by (by subst c1).
  split; [exact Hw1|]. split.
  { unfold add_testflight. run. rewrite Ht.
    unfold Py.list_in. rewrite (bool_decide_eq_false_2 _ Hw), Hf.
    destruct (store_app_info info c1) as [[[]|e] c2] eqn:Hs; [|reflexivity].
    assert (watched_apps c2 = watched_apps c) as ->; [|reflexivity].
    change c2 with (snd (Ret tt, c2)). rewrite <- Hs, (store_keeps_watched info c1).
    exact Hw1. }
  destruct (db_connection c !! "state") as [t|] eqn:Hdb.
  - destruct (add_testflight_success _ _ _ _ _ _ _ Ht Hw Hf Hdb) as [Hstore Hadd].
    set (c2 := count_change
                 (set_db (<["state" := <[app_id := is_full info]> t]> (db_connection c)) c1))
      in *.
    assert (stored app_id c2 = Some (is_full info)) as Hrow.
    { unfold stored, c2. cbn [count_change set_db db_connection].
      rewrite lookup_insert_eq. cbn. apply lookup_insert_eq. }
    assert (stored app_id c' = Some (is_full info)) as Hrow'.
    { unfold c'. rewrite Hadd, reply_run. exact Hrow. }
    split; [exact Hstore|]. split; [exact Hw1|]. split; [exact Hrow|].
    split; [by subst c1|]. split; [exact Hadd|]. split.
    { unfold c'. rewrite Hadd, reply_run. reflexivity. }
    split; [exact Hrow'|].
    intros w' pre. apply keeps_status_cycle_prefix.
    unfold has_status. rewrite Hrow'. eauto.
  - pose proof (add_testflight_store_raises _ _ _ _ _ _ Ht Hw Hf Hdb) as Hadd.
    split.
    { rewrite store_app_info_run. subst c1. cbn [tick emit db_connection].
      by rewrite Hdb. }
    split; [exact Hadd|]. unfold c'. rewrite Hadd. exact Hw1.
Qed.

Lemma add_stores_before_watching_witness :
  let w := Sample.calm (Response 200 Sample.page_full) in
  let input := "https://testflight.apple.com/join/abc123" in
  let c := Sample.cog false {[ "A" := true ]} ["A"] in
  let info := Sample.foo true "abc123" in
  let c1 := tick (emit (HttpGet (join_url "abc123")) c) in
  let c' := snd (add_testflight w input c) in
  watched_apps c1 = watched_apps c /\
  add_testflight w input c =
    (store_app_info info;;
     modify (set_watched (watched_apps c ++ ["abc123"]));;
     reply w ("Watching " +:+ name info)) c1 /\
  match db_connection c !! "state" with
  | None =>
      store_app_info info c1 = (Raise OperationalError, c1) /\
      add_testflight w input c = (Raise OperationalError, c1) /\
      watched_apps c' = watched_apps c
  | Some t =>
      let c2 :=
        count_change
          (set_db (<["state" := <["abc123" := is_full info]> t]> (db_connection c)) c1) in
      store_app_info info c1 = (Ret tt, c2) /\
      watched_apps c2 = watched_apps c /\
      stored "abc123" c2 = Some (is_full info) /\
      total_changes c2 = S (total_changes c) /\
      add_testflight w input c =
        reply w ("Watching " +:+ name info)
          (set_watched (watched_apps c ++ ["abc123"]) c2) /\
      watched_apps c' = watched_apps c ++ ["abc123"] /\
      stored "abc123" c' = Some (is_full info) /\
      (forall w' pre, has_status "abc123" (snd (for_each (loop_body w') pre c')))
  end.
Proof.
  intros w input c info c1 c'.
  apply (add_stores_before_watching w input "abc123" c info c1).
  - vm_compute. reflexivity.
  - apply (bool_decide_unpack ("abc123" ∉ ["A"])). vm_compute. exact I.
  - vm_compute. reflexivity.
Defined.

(** On a connection without the table the add raises at the upsert and the
    watched list is as before: the append has not been reached. *)
Example add_without_table_appends_nothing :
  let w := Sample.calm (Response 200 Sample.page_full) in
  let c := set_db ∅ (Sample.cog false ∅ ["A"]) in
  fst (add_testflight w "https://testflight.apple.com/join/abc123" c) =
    Raise OperationalError /\
  watched_apps (snd (add_testflight w "https://testflight.apple.com/join/abc123" c)) =
    ["A"].
Proof. vm_compute. split; reflexivity. Qed.

(** X7.  Whatever the old row, an iteration whose fetch yielded a record ends
    with the upsert done, unless [send_info] raised on the way. *)
Lemma fetched_status_stored w c app_id info c1 t :
  fetch_app_info w app_id c = (Ret (Some info), c1) ->
  db_connection c !! "state" = Some t ->
  (fst (loop_body w app_id c) = Ret tt /\
   stored app_id (snd (loop_body w app_id c)) = Some (is_full info)) \/
  (exists e c2, send_info w info c1 = (Raise e, c2) /\
                loop_body w app_id c = (Raise e, c2)).
Proof.
  intros Hf Ht. rewrite (loop_body_some _ _ _ _ _ _ Hf Ht).
  pose proof (fetch_app_info_some _ _ _ _ _ Hf) as [Hc1 Hid].
  assert (forall c', db_connection c' = db_connection c ->
            fst (store_app_info info c') = Ret tt /\
            stored app_id (snd (store_app_info info c')) = Some (is_full info)) as Hstore.
  { intros c' Hdb. rewrite store_app_info_run, Hdb, Ht, Hid. split; [reflexivity|].
    unfold stored. cbn [snd count_change set_db db_connection].
    rewrite lookup_insert_eq. cbn. apply lookup_insert_eq. }
  destruct (fresh_start c || negb (differs (is_full info) (t !! app_id))).
  - left. apply Hstore. subst c1. reflexivity.
  - rewrite bind_unfold.
    destruct (send_info w info c1) as [[[]|e] c2] eqn:Hsend.
    + left. apply Hstore.
      change c2 with (snd (Ret tt, c2)). rewrite <- Hsend, send_info_keeps_db.
      subst c1. reflexivity.
    + right. eauto.
Qed.

Example remove_by_url :
  let w := Sample.calm (Response 200 Sample.page_open) in
  let c := Sample.cog false {[ "A" := true ]} ["A"; "B"] in
  watched_apps (snd (remove_testflight w "https://testflight.apple.com/join/A" c)) = ["B"] /\
  stored "A" (snd (remove_testflight w "https://testflight.apple.com/join/A" c)) = Some true.
Proof. vm_compute. split; reflexivity. Qed.

(** * Further properties of the code *)

(** ** The table as a store *)

(** X1.  After [store_app_info] on a file that has the table, [was_full]
    of the stored id answers the stored status; the rows of all other ids,
    and all other tables, are as before. *)
Theorem stored_status_read_back info c t :
  db_connection c !! "state" = Some t ->
  let c' := snd (store_app_info info c) in
  fst (store_app_info info c) = Ret tt /\
  was_full (id info) c' = (Ret (Some (is_full info)), c') /\
  (forall other, other ≠ id info ->
     was_full other c' = (Ret (t !! other), c') /\
     was_full other c = (Ret (t !! other), c)) /\
  (forall table, table ≠ "state" ->
     db_connection c' !! table = db_connection c !! table).
Proof.
  intros Ht c'. subst c'. rewrite store_app_info_run, Ht. cbn [fst snd].
  split; [reflexivity|]. split; [|split].
  - rewrite was_full_run. cbn [count_change set_db db_connection].
    rewrite lookup_insert_eq, lookup_insert_eq. reflexivity.
  - intros other Hne. rewrite !was_full_run. cbn [count_change set_db db_connection].
    rewrite lookup_insert_eq, Ht, lookup_insert_ne by congruence. split; reflexivity.
  - intros table Hne. cbn [count_change set_db db_connection].
    rewrite lookup_insert_ne by congruence. reflexivity.
Qed.

Lemma stored_status_read_back_witness :
  let c := Sample.cog false {[ "A" := true ]} ["A"] in
  let info := Sample.foo false "B" in
  let c' := snd (store_app_info info c) in
  fst (store_app_info info c) = Ret tt /\
  was_full (id info) c' = (Ret (Some (is_full info)), c') /\
  (forall other, other ≠ id info ->
     was_full other c' = (Ret (({[ "A" := true ]} : gmap string bool) !! other), c') /\
     was_full other c = (Ret (({[ "A" := true ]} : gmap string bool) !! other), c)) /\
  (forall table, table ≠ "state" ->
     db_connection c' !! table = db_connection c !! table).
Proof.
  intros c info c'.
  apply (stored_status_read_back info c {[ "A" := true ]}).
  vm_compute. reflexivity.
Defined.

(** X2.  INSERT OR REPLACE keeps one row per id: of two stores for the same
    id only the second shows, storing a record twice is storing it once, and
    storing the status the row already holds changes nothing. *)
Theorem store_replaces_row info1 info2 c t :
  db_connection c !! "state" = Some t ->
  id info1 = id info2 ->
  db_connection (snd (store_app_info info2 (snd (store_app_info info1 c)))) =
    db_connection (snd (store_app_info info2 c)) /\
  db_connection (snd (store_app_info info1 (snd (store_app_info info1 c)))) =
    db_connection (snd (store_app_info info1 c)) /\
  (t !! id info1 = Some (is_full info1) ->
     db_connection (snd (store_app_info info1 c)) = db_connection c).
Proof.
  intros Ht Hid.
  assert (forall i j, db_connection (snd (store_app_info j (snd (store_app_info i c)))) =
            <["state" := <[id j := is_full j]> (<[id i := is_full i]> t)]> (db_connection c)) as H2.
  { intros i j. rewrite (store_app_info_run i c), Ht. cbn [snd].
    rewrite store_app_info_run. cbn [count_change set_db db_connection].
    rewrite lookup_insert_eq. cbn [snd count_change set_db db_connection].
    apply insert_insert_eq. }
  assert (forall i, db_connection (snd (store_app_info i c)) =
            <["state" := <[id i := is_full i]> t]> (db_connection c)) as H1.
  { intros i. rewrite store_app_info_run, Ht. reflexivity. }
  rewrite !H2, !H1, Hid, !insert_insert_eq. repeat split.
  intros Hrow. rewrite (insert_id t _ _ Hrow). apply insert_id, Ht.
Qed.

Lemma store_replaces_row_witness :
  let c := Sample.cog false {[ "A" := true ]} ["A"] in
  let info1 := Sample.foo true "A" in
  let info2 := Sample.foo false "A" in
  db_connection (snd (store_app_info info2 (snd (store_app_info info1 c)))) =
    db_connection (snd (store_app_info info2 c)) /\
  db_connection (snd (store_app_info info1 (snd (store_app_info info1 c)))) =
    db_connection (snd (store_app_info info1 c)) /\
  (({[ "A" := true ]} : gmap string bool) !! id info1 = Some (is_full info1) ->
     db_connection (snd (store_app_info info1 c)) = db_connection c).
Proof.
  intros c info1 info2.
  apply (store_replaces_row info1 info2 c {[ "A" := true ]}); vm_compute; reflexivity.
Defined.

(** ** Strings *)

Lemma str_app_cons x a b : String x a +:+ b = String x (a +:+ b).
Proof. reflexivity. Qed.

Lemma str_app_nil_r s : s +:+ "" = s.
Proof. induction s as [|a s IH]; [reflexivity|]. by rewrite str_app_cons, IH. Qed.

Lemma str_app_assoc a b c : (a +:+ b) +:+ c = a +:+ b +:+ c.
Proof. induction a as [|x a IH]; [reflexivity|]. by rewrite !str_app_cons, IH. Qed.

Lemma str_app_length a b : String.length (a +:+ b) = String.length a + String.length b.
Proof.
  induction a as [|x a IH]; [reflexivity|].
  rewrite str_app_cons. cbn [String.length]. by rewrite IH.
Qed.

Lemma str_rev_app_spec s1 s2 : String.rev_app s1 s2 = String.rev s1 +:+ s2.
Proof.
  unfold String.rev. revert s2.
  induction s1 as [|a s1 IH]; intros s2; cbn [String.rev_app].
  - reflexivity.
  - rewrite (IH (String a s2)), (IH (String a "")), str_app_assoc. reflexivity.
Qed.

Lemma str_rev_cons a s : String.rev (String a s) = String.rev s +:+ String a "".
Proof. unfold String.rev at 1. cbn [String.rev_app]. apply str_rev_app_spec. Qed.

Lemma str_rev_app a b : String.rev (a +:+ b) = String.rev b +:+ String.rev a.
Proof.
  induction a as [|x a IH].
  - change ("" +:+ b) with b. by rewrite str_app_nil_r.
  - rewrite str_app_cons, !str_rev_cons, IH, str_app_assoc. reflexivity.
Qed.

Lemma str_rev_involutive s : String.rev (String.rev s) = s.
Proof.
  induction s as [|a s IH]; [reflexivity|].
  rewrite str_rev_cons, str_rev_app, IH. reflexivity.
Qed.

Lemma strip_prefix_app p s : Py.strip_prefix p (p +:+ s) = Some s.
Proof.
  induction p as [|a p IH]; [reflexivity|]. rewrite str_app_cons. cbn [Py.strip_prefix].
  rewrite Ascii.eqb_refl. exact IH.
Qed.

Lemma removeprefix_app p s : Py.removeprefix p (p +:+ s) = s.
Proof. unfold Py.removeprefix. rewrite strip_prefix_app. reflexivity. Qed.

Lemma removesuffix_app p s : Py.removesuffix p (s +:+ p) = s.
Proof.
  unfold Py.removesuffix. rewrite str_rev_app, removeprefix_app. apply str_rev_involutive.
Qed.

(** A piece without the one-character separator, followed by it, is cut
    off whole. *)
Lemma split_go_char ch a b r :
  Py.contains (String ch "") a = false ->
  Py.split_go (String ch "") (S b) 0 (a +:+ String ch r) =
  a :: Py.split_go (String ch "") b 0 r.
Proof.
  induction a as [|c a IH]; intros H.
  - change ("" +:+ String ch r) with (String ch r). cbn [Py.split_go].
    rewrite prefix_cons_same, prefix_nil. reflexivity.
  - cbn [Py.contains] in H. apply orb_false_iff in H as [Hp Hc].
    change (String c a +:+ String ch r) with (String c (a +:+ String ch r)).
    cbn [Py.split_go].
    destruct (ascii_dec ch c) as [<-|Hne].
    + rewrite prefix_cons_same, prefix_nil in Hp. discriminate.
    + rewrite (prefix_cons_diff _ _ _ _ Hne), (IH Hc). reflexivity.
Qed.

(** No occurrence of [url(] begins in a piece that holds none and runs into
    a following [url(]. *)
Lemma prefix_url_straddle c p r :
  String.prefix "url(" (String c p) = false ->
  String.prefix "url(" (String c p +:+ "url(" +:+ r) = false.
Proof.
  destruct p as [|c2 [|c3 [|c4 p]]]; cbv [append]; cbn [String.prefix];
    repeat match goal with
           | |- context [ascii_dec ?a ?b] => destruct (ascii_dec a b) as [<-|?]
           end; try reflexivity; try discriminate.
  rewrite !prefix_nil. discriminate.
Qed.

Lemma split_go_url pre r :
  Py.contains "url(" pre = false ->
  Py.split_go "url(" 1 0 (pre +:+ "url(" +:+ r) = [pre; r].
Proof.
  induction pre as [|c pre IH]; intros H.
  - change ("" +:+ "url(" +:+ r) with ("url(" +:+ r).
    change ("url(" +:+ r) with (String "u" ("rl(" +:+ r)).
    cbn [Py.split_go]. change (String "u" ("rl(" +:+ r)) with ("url(" +:+ r).
    rewrite prefix_app. cbv [append]. cbn [String.length Nat.sub Py.split_go].
    rewrite split_go_exhausted. reflexivity.
  - cbn [Py.contains] in H. apply orb_false_iff in H as [Hp Hc].
    pose proof (prefix_url_straddle c pre r Hp) as Hs.
    change (String c pre +:+ "url(" +:+ r) with (String c (pre +:+ "url(" +:+ r)) in *.
    cbn [Py.split_go]. rewrite Hs, (IH Hc). reflexivity.
Qed.

(** The token between [url(] and the next [)] is what the two splits of
    [fetch_app_info] extract. *)
Lemma icon_url_extracted pre u post :
  Py.contains "url(" pre = false ->
  Py.contains ")" u = false ->
  res_bind (item (Py.split_max "url(" 1 (pre +:+ "url(" +:+ u +:+ ")" +:+ post)) 1)
    (fun rest => item (Py.split ")" rest) 0) = Ret u.
Proof.
  intros Hpre Hu. unfold Py.split_max. rewrite (split_go_url _ _ Hpre).
  cbn [item lookup list_lookup res_bind]. unfold Py.split.
  change (u +:+ ")" +:+ post) with (u +:+ String ")" post).
  rewrite str_app_length. cbn [String.length]. rewrite Nat.add_succ_r.
  rewrite (split_go_char _ _ _ _ Hu). reflexivity.
Qed.

(** X3.  On a page that follows the template, [parse_page] returns what the
    template was filled with: the name between [Join the ] and
    [ - TestFlight - Apple] in the title, and as icon the text between the
    first [url(] of the style and the next [)]. *)
Theorem parse_page_template app_id text style_attrs pre u post nm :
  style_attrs !! "style" = Some (pre +:+ "url(" +:+ u +:+ ")" +:+ post) ->
  Py.contains "url(" pre = false ->
  Py.contains ")" u = false ->
  parse_page app_id
    (mkSoup (Some (mkStatusDiv (Some text) (Some (mkElement style_attrs))))
            (Some (Some ("Join the " +:+ nm +:+ " - TestFlight - Apple")))) =
  Ret (mkApp (Py.contains "is full" (Py.lower text)) app_id nm u).
Proof.
  intros Hstyle Hpre Hu. unfold parse_page.
  cbn [status_div span_text app_icon attrs head_title]. rewrite Hstyle.
  pose proof (icon_url_extracted pre u post Hpre Hu) as Hicon.
  unfold res_bind in Hicon |- *.
  destruct (item (Py.split_max "url(" 1 (pre +:+ "url(" +:+ u +:+ ")" +:+ post)) 1)
    as [rest|]; [|discriminate].
  rewrite Hicon, removeprefix_app, removesuffix_app. reflexivity.
Qed.

Lemma parse_page_template_witness :
  parse_page "abc123"
    (mkSoup (Some (mkStatusDiv (Some "This beta IS FULL.")
                     (Some (mkElement {[ "style" := "background-image: " +:+ "url(" +:+
                                           "https://cdn.example/a.png" +:+ ")" +:+ "; color: red" ]}))))
            (Some (Some ("Join the " +:+ "Foo (beta)" +:+ " - TestFlight - Apple")))) =
  Ret (mkApp (Py.contains "is full" (Py.lower "This beta IS FULL.")) "abc123"
         "Foo (beta)" "https://cdn.example/a.png").
Proof.
  apply (parse_page_template "abc123" "This beta IS FULL."
           {[ "style" := "background-image: " +:+ "url(" +:+
                 "https://cdn.example/a.png" +:+ ")" +:+ "; color: red" ]}
           "background-image: " "https://cdn.example/a.png" "; color: red" "Foo (beta)");
    vm_compute; reflexivity.
Defined.

(** X4.  [parse_page] returns a record exactly for the pages that lack none
    of the elements it reads; a title outside the template, or a [url(] with
    no closing parenthesis, is no obstacle. *)
Theorem parse_page_succeeds_iff app_id soup :
  (exists info, parse_page app_id soup = Ret info) <-> lacks_element soup = false.
Proof.
  split.
  - intros [info Hinfo]. destruct (lacks_element soup) eqn:E; [|reflexivity].
    destruct (parse_page_lacking app_id soup E) as [e He]. congruence.
  - apply parse_page_complete.
Qed.

(** ** The events of an iteration and of a cycle *)

Lemma new_events_app c c' evs :
  trace c' = trace c ++ evs -> new_events c c' = evs.
Proof. intros H. unfold new_events. rewrite H. apply drop_app_length. Qed.

Lemma extends_new_events c c' :
  extends c c' -> trace c' = trace c ++ new_events c c'.
Proof. intros [evs H]. rewrite (new_events_app _ _ _ H). exact H. Qed.

Lemma extends_refl c : extends c c.
Proof. exists []. by rewrite app_nil_r. Qed.

Lemma extends_trans c1 c2 c3 : extends c1 c2 -> extends c2 c3 -> extends c1 c3.
Proof.
  intros [e1 H1] [e2 H2]. exists (e1 ++ e2). by rewrite H2, H1, app_assoc.
Qed.

Lemma new_events_trans c1 c2 c3 :
  extends c1 c2 -> extends c2 c3 ->
  new_events c1 c3 = new_events c1 c2 ++ new_events c2 c3.
Proof.
  intros H12 H23. apply new_events_app.
  rewrite (extends_new_events _ _ H23), (extends_new_events _ _ H12) at 1.
  by rewrite app_assoc.
Qed.

Lemma extends_store info c : extends c (snd (store_app_info info c)).
Proof. exists []. rewrite (store_keeps_trace info c). by rewrite app_nil_r. Qed.

(** What [send_info] and [send_error] add to the trace. *)
Lemma send_info_events w info c :
  exists tail,
    trace (snd (send_info w info c)) = trace c ++ NotifyChange info :: tail /\
    notification_tail (notification_channel_id c) tail.
Proof.
  unfold send_info, notification_channel, send_message, notification_tail. run.
  destruct (get_channel w (clock c) (notification_channel_id c)); run.
  - destruct (channel_send w (S (clock c))); run;
      rewrite <- app_assoc; eexists; (split; [reflexivity|]); eauto.
  - destruct (fetch_channel w (S (clock c)) (notification_channel_id c)); run.
    + destruct (channel_send w (S (S (clock c)))); run;
        rewrite <- app_assoc; eexists; (split; [reflexivity|]); eauto.
    + rewrite <- app_assoc. eexists. split; [reflexivity|]. eauto.
    + exists []. split; [reflexivity|]. eauto.
Qed.

Lemma send_error_events w app_id c :
  exists tail,
    trace (snd (send_error w app_id c)) = trace c ++ NotifyError app_id :: tail /\
    notification_tail (notification_channel_id c) tail.
Proof.
  unfold send_error, notification_channel, send_message, notification_tail. run.
  destruct (get_channel w (clock c) (notification_channel_id c)); run.
  - destruct (channel_send w (S (clock c))); run;
      rewrite <- app_assoc; eexists; (split; [reflexivity|]); eauto.
  - destruct (fetch_channel w (S (clock c)) (notification_channel_id c)); run.
    + destruct (channel_send w (S (S (clock c)))); run;
        rewrite <- app_assoc; eexists; (split; [reflexivity|]); eauto.
    + rewrite <- app_assoc. eexists. split; [reflexivity|]. eauto.
    + exists []. split; [reflexivity|]. eauto.
Qed.

(** The ways an iteration can go, as a case principle: the session is
    missing; or the request is made and then the fetch raises, yields nothing
    (with or without [send_error]), or yields a record that is stored, after
    [send_info] when the flag is clear. *)
Lemma loop_body_cases (P : res unit * Cog -> Prop) w app_id c :
  let c1 := tick (emit (HttpGet (join_url app_id)) c) in
  (session c = false -> P (Raise AssertionError, c)) ->
  (forall e, P (Raise e, c1)) ->
  P (Ret tt, c1) ->
  P (send_error w app_id c1) ->
  (forall info, id info = app_id -> P (store_app_info info c1)) ->
  (forall info, id info = app_id -> fresh_start c = false ->
     P ((send_info w info ;; store_app_info info) c1)) ->
  P (loop_body w app_id c).
Proof.
  intros c1 Hsess Hraise Hskip Herr Hstore Hsend.
  destruct (fetch_app_info w app_id c) as [[[info|]|e] c1'] eqn:Hf.
  - pose proof (fetch_app_info_some _ _ _ _ _ Hf) as [-> Hid]. fold c1 in Hf.
    destruct (db_connection c !! "state") as [t|] eqn:Ht.
    + rewrite (loop_body_some _ _ _ _ _ _ Hf Ht).
      destruct (fresh_start c) eqn:Hfresh; cbn [orb]; [by apply Hstore|].
      destruct (negb (differs (is_full info) (t !! app_id))); [by apply Hstore|].
      by apply Hsend.
    + unfold loop_body. rewrite (bind_ret _ _ _ _ _ Hf). subst c1. run.
      destruct (fresh_start c) eqn:Hfresh.
      * apply (Hstore info Hid).
      * rewrite was_full_run. run. rewrite Ht. apply Hraise.
  - assert (c1' = c1) as ->.
    { revert Hf. rewrite fetch_app_info_run. destruct (session c); [|discriminate].
      cbv zeta. destruct (http_get w (clock c) (join_url app_id)) as [|st soup];
        [discriminate|].
      destruct (st =? 200)%Z; [destruct (parse_page app_id soup); discriminate|].
      intros [= <-]. reflexivity. }
    rewrite (loop_body_none _ _ _ _ Hf). destruct (send_errors c); assumption.
  - unfold loop_body. rewrite (bind_raise _ _ _ _ _ Hf).
    revert Hf. rewrite fetch_app_info_run. destruct (session c).
    + cbv zeta. destruct (http_get w (clock c) (join_url app_id)) as [|st soup].
      * intros [= <- <-]. apply Hraise.
      * destruct (st =? 200)%Z; [|discriminate].
        destruct (parse_page app_id soup); [discriminate|].
        intros [= <- <-]. apply Hraise.
    + intros [= <- <-]. by apply Hsess.
Qed.

Lemma loop_body_events w app_id c :
  loop_body w app_id c = (Raise AssertionError, c) \/
  exists evs,
    trace (snd (loop_body w app_id c)) = trace c ++ evs /\
    iteration_events (notification_channel_id c) app_id (fresh_start c) evs.
Proof.
  apply (loop_body_cases
    (fun r => r = (Raise AssertionError, c) \/
              exists evs, trace (snd r) = trace c ++ evs /\
                iteration_events (notification_channel_id c) app_id (fresh_start c) evs)).
  - intros _. by left.
  - intros e. right. eexists. split; [reflexivity|]. eexists. eauto.
  - right. eexists. split; [reflexivity|]. eexists. eauto.
  - right. destruct (send_error_events w app_id
               (tick (emit (HttpGet (join_url app_id)) c))) as (tail & Htr & Htail).
    eexists. split.
    + rewrite Htr. cbn [tick emit trace]. rewrite <- app_assoc. reflexivity.
    + eexists. split; [reflexivity|]. right. do 2 eexists. eauto.
  - intros info Hid. right. eexists. split.
    + rewrite (store_keeps_trace info). reflexivity.
    + eexists. eauto.
  - intros info Hid Hfresh. right.
    destruct (send_info_events w info
               (tick (emit (HttpGet (join_url app_id)) c))) as (tail & Htr & Htail).
    eexists. split.
    + rewrite bind_unfold.
      destruct (send_info w info (tick (emit (HttpGet (join_url app_id)) c)))
        as [[[]|e] c2]; cbn [snd] in *.
      * rewrite (store_keeps_trace info c2), Htr. cbn [tick emit trace].
        rewrite <- app_assoc. reflexivity.
      * rewrite Htr. cbn [tick emit trace]. rewrite <- app_assoc. reflexivity.
    + eexists. split; [reflexivity|]. right. do 2 eexists.
      split; [reflexivity|]. split; [|exact Htail]. right. eauto.
Qed.

Lemma requests_cons e evs :
  requests (e :: evs) =
  match e with
  | HttpGet target => target :: requests evs
  | _ => requests evs
  end.
Proof. destruct e; reflexivity. Qed.

Lemma send_targets_cons e evs :
  send_targets (e :: evs) =
  match e with
  | ChannelSend channel _ => channel :: send_targets evs
  | _ => send_targets evs
  end.
Proof. destruct e; reflexivity. Qed.

Lemma requests_app evs1 evs2 :
  requests (evs1 ++ evs2) = requests evs1 ++ requests evs2.
Proof. apply omap_app. Qed.

Lemma send_targets_app evs1 evs2 :
  send_targets (evs1 ++ evs2) = send_targets evs1 ++ send_targets evs2.
Proof. apply omap_app. Qed.

Lemma iteration_events_cycle channel app_id fresh evs :
  iteration_events channel app_id fresh evs ->
  requests evs = [join_url app_id] /\
  Forall (fun ch => ch = channel) (send_targets evs) /\
  length (send_targets evs) <= 1 /\
  (fresh = true -> Forall (fun e => is_notify_change e = false) evs).
Proof.
  intros (rest & -> & [-> | (mark & tail & -> & Hmark & Htail)]).
  { cbn. repeat split; try constructor; repeat constructor. }
  assert (requests tail = [] /\ Forall (fun ch => ch = channel) (send_targets tail) /\
          length (send_targets tail) <= 1 /\
          Forall (fun e => is_notify_change e = false) tail) as (Hr & Hs & Hl & Hn).
  { destruct Htail as [-> | [-> | [m ->]]]; cbn; repeat split; repeat constructor. }
  rewrite !requests_cons, !send_targets_cons.
  destruct Hmark as [-> | (info & -> & _ & ->)]; rewrite Hr;
    (split; [reflexivity|]); (split; [exact Hs|]); (split; [exact Hl|]).
  - intros _. repeat constructor. exact Hn.
  - discriminate.
Qed.

Lemma loop_body_keeps_channel w app_id c :
  notification_channel_id (snd (loop_body w app_id c)) = notification_channel_id c.
Proof.
  apply (preserves_loop_body (same notification_channel_id));
    first [apply same_refl | apply same_trans | reflexivity | idtac].
  intros info c0. rewrite store_app_info_run.
  destruct (db_connection c0 !! "state"); reflexivity.
Qed.

Lemma loop_body_keeps_fresh_start w app_id c :
  fresh_start (snd (loop_body w app_id c)) = fresh_start c.
Proof.
  apply (preserves_loop_body (same fresh_start));
    first [apply same_refl | apply same_trans | reflexivity | idtac].
  apply store_keeps_fresh_start.
Qed.

Lemma for_each_events w l c :
  extends c (snd (for_each (loop_body w) l c)) /\
  cycle_events (notification_channel_id c) (fresh_start c) l
    (returned (fst (for_each (loop_body w) l c)))
    (new_events c (snd (for_each (loop_body w) l c))).
Proof.
  revert c. induction l as [|x l IH]; intros c.
  - cbn [for_each]. split; [apply extends_refl|].
    rewrite (new_events_app c _ []) by (cbn; by rewrite app_nil_r).
    unfold cycle_events. cbn. repeat split; try constructor. by exists [].
  - rewrite for_each_cons.
    destruct (loop_body_events w x c) as [Hassert | (evs & Htr & Hev)].
    { rewrite Hassert. cbn [fst snd returned]. split; [apply extends_refl|].
      rewrite (new_events_app c _ []) by (by rewrite app_nil_r).
      unfold cycle_events. cbn. repeat split; try constructor; try discriminate; try lia.
      by eexists. }
    apply iteration_events_cycle in Hev as (Hr & Hs & Hl & Hn).
    pose proof (loop_body_keeps_channel w x c) as Hch.
    pose proof (loop_body_keeps_fresh_start w x c) as Hfr.
    destruct (loop_body w x c) as [[[]|e] c1]; cbn [fst snd] in *.
    + destruct (IH c1) as (Hext & Hp & Hnormal & Hs' & Hl' & Hn').
      rewrite Hch in Hs'. rewrite Hfr in Hn'.
      assert (extends c c1) as Hext1 by (by exists evs).
      split; [by eapply extends_trans|].
      rewrite (new_events_trans _ _ _ Hext1 Hext), (new_events_app _ _ _ Htr).
      unfold cycle_events in *.
      rewrite requests_app, send_targets_app, Hr.
      cbn [fmap list_fmap app]. repeat split.
      * by apply prefix_cons.
      * intros Hret. by rewrite (Hnormal Hret).
      * apply Forall_app. split; assumption.
      * rewrite length_app. cbn [length]. lia.
      * intros Hf. apply Forall_app. split; [by apply Hn | by apply Hn'].
    + split; [by exists evs|]. rewrite (new_events_app _ _ _ Htr).
      unfold cycle_events. rewrite Hr. cbn [returned fmap list_fmap length].
      repeat split; try assumption; try discriminate; try lia.
      apply prefix_cons. by eexists.
Qed.

Lemma loop_callback_run w c :
  loop_callback w c =
  for_each (loop_body w) (watched_apps c)
    (emit (LogDebug "Checking TestFlight app statuses") c).
Proof. unfold loop_callback. run. reflexivity. Qed.

Lemma loop_callback_events w c :
  cycle_events (notification_channel_id c) (fresh_start c) (watched_apps c)
    (returned (fst (loop_callback w c)))
    (new_events c (snd (loop_callback w c))).
Proof.
  rewrite loop_callback_run.
  set (c0 := emit (LogDebug "Checking TestFlight app statuses") c).
  destruct (for_each_events w (watched_apps c) c0) as [Hext Hev].
  assert (extends c c0) as H0 by (by eexists).
  rewrite (new_events_trans _ _ _ H0 Hext), (new_events_app c c0 _ eq_refl).
  change (watched_apps c) with (watched_apps c0).
  destruct Hev as (Hp & Hn & Hs & Hl & Hf). unfold cycle_events.
  rewrite requests_app, send_targets_app. cbn [requests send_targets omap app].
  repeat split; try assumption.
  intros Hfresh. constructor; [reflexivity | by apply Hf].
Qed.

(** X9.  A cycle requests the pages of the watched ids in list order, one
    request per id and none repeated: what it requested is a first part of
    the list, and the whole list when the cycle ends normally. *)
Theorem cycle_requests_each_id_once w c :
  requests (new_events c (snd (loop_callback w c)))
    `prefix_of` (join_url <$> watched_apps c) /\
  (fst (loop_callback w c) = Ret tt ->
   requests (new_events c (snd (loop_callback w c))) = join_url <$> watched_apps c).
Proof.
  destruct (loop_callback_events w c) as (Hp & Hn & _). split; [exact Hp|].
  intros Hret. apply Hn. rewrite Hret. reflexivity.
Qed.

(** X10.  Every message of a cycle goes to the channel configured when the
    cycle began, and a cycle sends at most one message per watched id. *)
Theorem cycle_sends_to_configured_channel w c :
  Forall (fun ch => ch = notification_channel_id c)
    (send_targets (new_events c (snd (loop_callback w c)))) /\
  length (send_targets (new_events c (snd (loop_callback w c))))
    <= length (watched_apps c).
Proof.
  destruct (loop_callback_events w c) as (_ & _ & Hs & Hl & _). by split.
Qed.

(** X11.  With [fresh_start] set, a cycle calls [send_info] for no app,
    whatever the pages say and whatever the table holds. *)
Theorem fresh_start_cycle_is_silent w c :
  fresh_start c = true ->
  Forall (fun e => is_notify_change e = false)
    (new_events c (snd (loop_callback w c))).
Proof.
  intros Hfresh. destruct (loop_callback_events w c) as (_ & _ & _ & _ & Hf).
  by apply Hf.
Qed.

Lemma fresh_start_cycle_is_silent_witness :
  Forall (fun e => is_notify_change e = false)
    (new_events (Sample.cog true {[ "A" := true ]} ["A"; "B"])
       (snd (loop_callback (Sample.calm (Response 200 Sample.page_open))
               (Sample.cog true {[ "A" := true ]} ["A"; "B"])))).
Proof.
  apply (fresh_start_cycle_is_silent (Sample.calm (Response 200 Sample.page_open))
           (Sample.cog true {[ "A" := true ]} ["A"; "B"])).
  reflexivity.
Defined.

Lemma stored_store_other info c app_id :
  id info ≠ app_id ->
  stored app_id (snd (store_app_info info c)) = stored app_id c.
Proof.
  intros Hne. rewrite store_app_info_run.
  destruct (db_connection c !! "state") as [t|] eqn:Ht; cbn [snd]; [|reflexivity].
  unfold stored. cbn [count_change set_db db_connection]. rewrite lookup_insert_eq, Ht. cbn.
  by apply lookup_insert_ne.
Qed.

Lemma stored_same_db app_id c c' :
  db_connection c' = db_connection c -> stored app_id c' = stored app_id c.
Proof. unfold stored. by intros ->. Qed.

Lemma loop_body_other_rows w x c app_id :
  x ≠ app_id -> stored app_id (snd (loop_body w x c)) = stored app_id c.
Proof.
  intros Hne.
  apply (loop_body_cases (fun r => stored app_id (snd r) = stored app_id c)).
  - reflexivity.
  - reflexivity.
  - reflexivity.
  - apply stored_same_db. rewrite send_error_keeps_db. reflexivity.
  - intros info Hid. rewrite stored_store_other by congruence. reflexivity.
  - intros info Hid _. rewrite bind_unfold.
    pose proof (send_info_keeps_db w info (tick (emit (HttpGet (join_url x)) c))) as Hdb.
    destruct (send_info w info (tick (emit (HttpGet (join_url x)) c)))
      as [[[]|e] c2]; cbn [snd] in *.
    + rewrite stored_store_other by congruence. by apply stored_same_db.
    + by apply stored_same_db.
Qed.

(** X12.  A cycle leaves the row of every id that is not watched as it
    was. *)
Theorem cycle_writes_watched_rows_only w c app_id :
  app_id ∉ watched_apps c ->
  stored app_id (snd (loop_callback w c)) = stored app_id c.
Proof.
  rewrite loop_callback_run.
  change (stored app_id c)
    with (stored app_id (emit (LogDebug "Checking TestFlight app statuses") c)).
  generalize (emit (LogDebug "Checking TestFlight app statuses") c).
  induction (watched_apps c) as [|x l IH]; intros c0 Hnot.
  - reflexivity.
  - apply not_elem_of_cons in Hnot as [Hne Hnot].
    rewrite for_each_cons.
    pose proof (loop_body_other_rows w x c0 app_id (not_eq_sym Hne)) as Hx.
    destruct (loop_body w x c0) as [[[]|e] c1]; cbn [snd] in *.
    + rewrite (IH c1 Hnot). exact Hx.
    + exact Hx.
Qed.

Lemma cycle_writes_watched_rows_only_witness :
  stored "C" (snd (loop_callback (Sample.calm (Response 200 Sample.page_open))
                     (Sample.cog false {[ "A" := true; "C" := true ]} ["A"; "B"]))) =
  stored "C" (Sample.cog false {[ "A" := true; "C" := true ]} ["A"; "B"]).
Proof.
  apply (cycle_writes_watched_rows_only (Sample.calm (Response 200 Sample.page_open))
           (Sample.cog false {[ "A" := true; "C" := true ]} ["A"; "B"]) "C").
  apply (bool_decide_unpack ("C" ∉ ["A"; "B"])). vm_compute. exact I.
Defined.

(** X13.  A cycle changes neither the watched list nor any other setting,
    nor the session. *)
Theorem cycle_keeps_configuration w c :
  configuration (snd (loop_callback w c)) = configuration c.
Proof.
  apply (preserves_loop_callback (same configuration));
    first [apply same_refl | apply same_trans | reflexivity | idtac].
  intros info c0. unfold same. rewrite store_app_info_run.
  destruct (db_connection c0 !! "state"); reflexivity.
Qed.

(** ** The commands *)

Lemma stored_store_same info c t :
  db_connection c !! "state" = Some t ->
  stored (id info) (snd (store_app_info info c)) = Some (is_full info).
Proof.
  intros Ht. rewrite store_app_info_run, Ht. unfold stored.
  cbn [snd count_change set_db db_connection]. rewrite lookup_insert_eq. cbn.
  apply lookup_insert_eq.
Qed.

(** Every way [add_testflight] can end: nothing watched and nothing stored,
    or the id appended and its row stored. *)
Lemma add_testflight_outcomes w input c :
  (watched_apps (snd (add_testflight w input c)) = watched_apps c /\
   db_connection (snd (add_testflight w input c)) = db_connection c) \/
  (exists app_id info,
     target_id input = Ret (Some app_id) /\
     (app_id ∉ watched_apps c) /\
     fst (fetch_app_info w app_id c) = Ret (Some info) /\
     watched_apps (snd (add_testflight w input c)) = watched_apps c ++ [app_id] /\
     stored app_id (snd (add_testflight w input c)) = Some (is_full info) /\
     (forall other, other ≠ app_id ->
        stored other (snd (add_testflight w input c)) = stored other c)).
Proof.
  destruct (target_id input) as [[app_id|]|e] eqn:Ht.
  - destruct (decide (app_id ∈ watched_apps c)) as [Hin|Hnot].
    { left. unfold add_testflight. run. rewrite Ht. unfold Py.list_in.
      rewrite (bool_decide_eq_true_2 _ Hin), reply_run. split; reflexivity. }
    destruct (fetch_app_info w app_id c) as [[[info|]|e] c1] eqn:Hf.
    + destruct (db_connection c !! "state") as [t|] eqn:Hdb.
      * right. exists app_id, info.
        destruct (add_testflight_success _ _ _ _ _ _ _ Ht Hnot Hf Hdb) as [Hstore ->].
        pose proof (fetch_app_info_some _ _ _ _ _ Hf) as [-> Hid].
        rewrite reply_run. cbn [snd fst].
        repeat split; try assumption; try reflexivity.
        -- by rewrite Hf.
        -- unfold stored. cbn [tick emit set_watched count_change set_db db_connection].
           rewrite lookup_insert_eq. cbn. apply lookup_insert_eq.
        -- intros other Hne. unfold stored.
           cbn [tick emit set_watched count_change set_db db_connection].
           rewrite lookup_insert_eq, Hdb. cbn. by apply lookup_insert_ne.
      * left. unfold add_testflight. run. rewrite Ht. unfold Py.list_in.
        rewrite (bool_decide_eq_false_2 _ Hnot), Hf, store_app_info_run.
        pose proof (fetch_app_info_some _ _ _ _ _ Hf) as [-> Hid].
        cbn [tick emit db_connection]. rewrite Hdb. split; reflexivity.
    + left. unfold add_testflight. run. rewrite Ht. unfold Py.list_in.
      rewrite (bool_decide_eq_false_2 _ Hnot), Hf, reply_run. cbn [snd].
      change c1 with (snd (Ret (@None TestFlightApp), c1)). rewrite <- Hf.
      split; [apply fetch_keeps_watched | apply fetch_keeps_db].
    + left. unfold add_testflight. run. rewrite Ht. unfold Py.list_in.
      rewrite (bool_decide_eq_false_2 _ Hnot), Hf. cbn [snd].
      change c1 with (snd (@Raise (option TestFlightApp) e, c1)). rewrite <- Hf.
      split; [apply fetch_keeps_watched | apply fetch_keeps_db].
  - left. rewrite (add_testflight_invalid _ _ _ Ht), reply_run. split; reflexivity.
  - left. unfold add_testflight. run. rewrite Ht. split; reflexivity.
Qed.

(** X14.  [add_testflight] either changes neither the watched list nor the
    table, or appends the id, which was not watched, and leaves its fetched
    status in the table, touching no other row. *)
Theorem add_testflight_all_or_nothing w input c :
  (watched_apps (snd (add_testflight w input c)) = watched_apps c /\
   db_connection (snd (add_testflight w input c)) = db_connection c) \/
  (exists app_id info,
     target_id input = Ret (Some app_id) /\
     (app_id ∉ watched_apps c) /\
     fst (fetch_app_info w app_id c) = Ret (Some info) /\
     watched_apps (snd (add_testflight w input c)) = watched_apps c ++ [app_id] /\
     stored app_id (snd (add_testflight w input c)) = Some (is_full info) /\
     (forall other, other ≠ app_id ->
        stored other (snd (add_testflight w input c)) = stored other c)).
Proof. apply add_testflight_outcomes. Qed.

(** X15.  A watched list without repeated ids stays so under
    [add_testflight], whatever the input and the outcome. *)
Theorem add_testflight_keeps_distinct w input c :
  NoDup (watched_apps c) -> NoDup (watched_apps (snd (add_testflight w input c))).
Proof.
  intros Hnd.
  destruct (add_testflight_outcomes w input c)
    as [[-> _] | (app_id & info & _ & Hnot & _ & -> & _)]; [exact Hnd|].
  apply NoDup_app. split; [exact Hnd|]. split.
  - intros x Hx Hx'. apply list_elem_of_singleton in Hx'. by subst.
  - apply NoDup_singleton.
Qed.

Lemma add_testflight_keeps_distinct_witness :
  NoDup (watched_apps (snd (add_testflight (Sample.calm (Response 200 Sample.page_open))
                              "https://testflight.apple.com/join/B"
                              (Sample.cog false {[ "A" := true ]} ["A"])))).
Proof.
  apply (add_testflight_keeps_distinct (Sample.calm (Response 200 Sample.page_open))
           "https://testflight.apple.com/join/B"
           (Sample.cog false {[ "A" := true ]} ["A"])).
  apply (bool_decide_unpack (NoDup ["A"])). vm_compute. exact I.
Defined.

(** X16.  [add_testflight] makes at most one request, for the page of the id
    it extracted, and none when the input is refused, the id is already
    watched or the session is missing. *)
Theorem add_testflight_one_request w input c :
  requests (new_events c (snd (add_testflight w input c))) = [] \/
  exists app_id,
    target_id input = Ret (Some app_id) /\
    (app_id ∉ watched_apps c) /\
    session c = true /\
    requests (new_events c (snd (add_testflight w input c))) = [join_url app_id].
Proof.
  assert (forall c' evs, trace c' = trace c ++ evs -> requests evs = [] ->
            requests (new_events c c') = []) as Hquiet.
  { intros c' evs Htr Hev. by rewrite (new_events_app _ _ _ Htr). }
  destruct (target_id input) as [[app_id|]|e] eqn:Ht.
  - destruct (decide (app_id ∈ watched_apps c)) as [Hin|Hnot].
    { left. unfold add_testflight. run. rewrite Ht. unfold Py.list_in.
      rewrite (bool_decide_eq_true_2 _ Hin), reply_run.
      by apply (Hquiet _ [CtxSend "App already being watched"]). }
    destruct (session c) eqn:Hsess.
    + right. exists app_id. repeat split; try assumption.
      unfold add_testflight. run. rewrite Ht. unfold Py.list_in.
      rewrite (bool_decide_eq_false_2 _ Hnot), fetch_app_info_run, Hsess. cbv zeta.
      destruct (http_get w (clock c) (join_url app_id)) as [|st soup].
      { by rewrite (new_events_app _ _ [HttpGet (join_url app_id)]). }
      destruct (st =? 200)%Z.
      * destruct (parse_page app_id soup) as [info|e].
        -- rewrite store_app_info_run. cbn [tick emit db_connection].
           destruct (db_connection c !! "state").
           ++ run. rewrite reply_run. cbn [snd].
              erewrite new_events_app;
                [|cbn [tick emit set_watched count_change set_db trace];
                  rewrite <- app_assoc; reflexivity].
              reflexivity.
           ++ by rewrite (new_events_app _ _ [HttpGet (join_url app_id)]).
        -- by rewrite (new_events_app _ _ [HttpGet (join_url app_id)]).
      * rewrite reply_run. cbn [snd].
        erewrite new_events_app;
          [|cbn [tick emit trace]; rewrite <- app_assoc; reflexivity].
        reflexivity.
    + left. unfold add_testflight. run. rewrite Ht. unfold Py.list_in.
      rewrite (bool_decide_eq_false_2 _ Hnot), fetch_app_info_run, Hsess.
      apply (Hquiet _ []); [by rewrite app_nil_r | reflexivity].
  - left. rewrite (add_testflight_invalid _ _ _ Ht), reply_run.
    by apply (Hquiet _ [CtxSend "Invalid URL"]).
  - left. unfold add_testflight. run. rewrite Ht.
    apply (Hquiet _ []); [by rewrite app_nil_r | reflexivity].
Qed.

Lemma list_remove_absent x (l : list string) : x ∉ l -> Py.list_remove x l = l.
Proof.
  induction l as [|y l IH]; intros H; [reflexivity|].
  apply not_elem_of_cons in H as [Hne Hl]. cbn [Py.list_remove].
  destruct (String.eqb_spec x y); [contradiction|]. by rewrite IH.
Qed.

Lemma list_remove_appended x (l : list string) : x ∉ l -> Py.list_remove x (l ++ [x]) = l.
Proof.
  induction l as [|y l IH]; intros H.
  - cbn. by rewrite String.eqb_refl.
  - apply not_elem_of_cons in H as [Hne Hl]. cbn [app Py.list_remove].
    destruct (String.eqb_spec x y); [contradiction|]. by rewrite IH.
Qed.

Lemma filter_absent (x : string) (l : list string) : x ∉ l -> filter (fun y => y ≠ x) l = l.
Proof.
  induction l as [|y l IH]; intros H; [reflexivity|].
  apply not_elem_of_cons in H as [Hne Hl].
  rewrite filter_cons_True by congruence. by rewrite IH.
Qed.

(** On a list without repetitions, [remove] leaves exactly the other
    elements. *)
Lemma list_remove_distinct x (l : list string) :
  NoDup l -> Py.list_remove x l = filter (fun y => y ≠ x) l.
Proof.
  induction l as [|y l IH]; intros H; [reflexivity|].
  apply NoDup_cons in H as [Hy Hl]. cbn [Py.list_remove].
  destruct (String.eqb_spec x y) as [->|Hne].
  - rewrite filter_cons_False by (intros ?; congruence).
    symmetry. by apply filter_absent.
  - rewrite filter_cons_True by congruence. by rewrite IH.
Qed.

(** X17.  On a watched list without repeated ids, [remove_testflight] leaves
    exactly the other ids, in their order, and never touches the table: the
    row of a removed app stays. *)
Theorem remove_testflight_unwatches w input app_id c :
  target_id input = Ret (Some app_id) ->
  NoDup (watched_apps c) ->
  let c' := snd (remove_testflight w input c) in
  watched_apps c' = filter (fun y => y ≠ app_id) (watched_apps c) /\
  (app_id ∉ watched_apps c') /\
  db_connection c' = db_connection c /\
  new_events c c' =
    [CtxSend (if bool_decide (app_id ∈ watched_apps c)
              then "No longer watching app" else "App not being watched")].
Proof.
  intros Ht Hnd c'.
  assert (watched_apps c' = filter (fun y => y ≠ app_id) (watched_apps c) /\
          db_connection c' = db_connection c /\
          new_events c c' =
            [CtxSend (if bool_decide (app_id ∈ watched_apps c)
                      then "No longer watching app" else "App not being watched")])
    as (Hw & Hdb & Hev).
  { subst c'. unfold remove_testflight. run. rewrite Ht. unfold Py.list_in.
    destruct (decide (app_id ∈ watched_apps c)) as [Hin|Hnot].
    - rewrite (bool_decide_eq_true_2 _ Hin). cbn [negb]. run. rewrite reply_run.
      cbn [snd tick emit set_watched watched_apps db_connection].
      split; [by apply list_remove_distinct|]. split; [reflexivity|].
      by apply new_events_app.
    - rewrite (bool_decide_eq_false_2 _ Hnot). cbn [negb]. rewrite reply_run.
      cbn [snd tick emit watched_apps db_connection].
      split; [by rewrite filter_absent|]. split; [reflexivity|].
      by apply new_events_app. }
  repeat split; try assumption.
  rewrite Hw. intros Hin. apply list_elem_of_filter in Hin as [Hne _]. by apply Hne.
Qed.

Lemma remove_testflight_unwatches_witness :
  let w := Sample.calm (Response 200 Sample.page_open) in
  let input := "https://testflight.apple.com/join/A" in
  let c := Sample.cog false {[ "A" := true ]} ["A"; "B"] in
  let c' := snd (remove_testflight w input c) in
  watched_apps c' = filter (fun y => y ≠ "A") (watched_apps c) /\
  ("A" ∉ watched_apps c') /\
  db_connection c' = db_connection c /\
  new_events c c' =
    [CtxSend (if bool_decide ("A" ∈ watched_apps c)
              then "No longer watching app" else "App not being watched")].
Proof.
  intros w input c c'. apply (remove_testflight_unwatches w input "A" c).
  - vm_compute. reflexivity.
  - apply (bool_decide_unpack (NoDup ["A"; "B"])). vm_compute. exact I.
Defined.

(** X18.  Removing an app that was just added restores the watched list as
    it was before the add, while the row the add stored stays in the
    table. *)
Theorem add_then_remove_restores_list w w' input app_id c info c1 t :
  target_id input = Ret (Some app_id) ->
  app_id ∉ watched_apps c ->
  fetch_app_info w app_id c = (Ret (Some info), c1) ->
  db_connection c !! "state" = Some t ->
  let c' := snd (add_testflight w input c) in
  let c'' := snd (remove_testflight w' input c') in
  watched_apps c'' = watched_apps c /\
  stored app_id c'' = Some (is_full info) /\
  new_events c' c'' = [CtxSend "No longer watching app"].
Proof.
  intros Ht Hnot Hf Hdb c' c''.
  destruct (add_testflight_success _ _ _ _ _ _ _ Ht Hnot Hf Hdb) as [_ Hadd].
  assert (watched_apps c' = watched_apps c ++ [app_id]) as Hw'.
  { subst c'. rewrite Hadd, reply_run. reflexivity. }
  assert (stored app_id c' = Some (is_full info)) as Hrow.
  { subst c'. rewrite Hadd, reply_run. unfold stored.
    cbn [snd tick emit set_watched count_change set_db db_connection].
    rewrite lookup_insert_eq. cbn. apply lookup_insert_eq. }
  subst c''. unfold remove_testflight. run. rewrite Ht. unfold Py.list_in.
  rewrite bool_decide_eq_true_2 by (rewrite Hw'; set_solver).
  cbn [negb]. run. rewrite reply_run.
  cbn [snd tick emit set_watched watched_apps]. rewrite Hw'.
  split; [by apply list_remove_appended|]. split; [exact Hrow|].
  by apply new_events_app.
Qed.

Lemma add_then_remove_restores_list_witness :
  let w := Sample.calm (Response 200 Sample.page_full) in
  let input := "https://testflight.apple.com/join/abc123" in
  let c := Sample.cog false {[ "A" := true ]} ["A"] in
  let c' := snd (add_testflight w input c) in
  let c'' := snd (remove_testflight w input c') in
  watched_apps c'' = watched_apps c /\
  stored "abc123" c'' = Some (is_full (Sample.foo true "abc123")) /\
  new_events c' c'' = [CtxSend "No longer watching app"].
Proof.
  intros w input c c' c''.
  apply (add_then_remove_restores_list w w input "abc123" c (Sample.foo true "abc123")
           (tick (emit (HttpGet (join_url "abc123")) c)) {[ "A" := true ]}).
  - vm_compute. reflexivity.
  - apply (bool_decide_unpack ("abc123" ∉ ["A"])). vm_compute. exact I.
  - vm_compute. reflexivity.
  - vm_compute. reflexivity.
Defined.

(** ** Listing *)

Lemma list_loop_step w x rest infos c :
  list_loop w (x :: rest) infos c =
  match fetch_app_info w x c with
  | (Ret (Some info), c1) =>
      match store_app_info info c1 with
      | (Ret _, c2) => list_loop w rest (infos ++ [info]) c2
      | (Raise e, c2) => (Raise e, c2)
      end
  | (Ret None, c1) => list_loop w rest infos c1
  | (Raise e, c1) => (Raise e, c1)
  end.
Proof.
  cbn [list_loop]. rewrite bind_unfold.
  destruct (fetch_app_info w x c) as [[[info|]|e] c1]; reflexivity.
Qed.

Section ListFrame.

Variable R : relation Cog.
Hypothesis R_refl : forall c, R c c.
Hypothesis R_trans : forall c1 c2 c3, R c1 c2 -> R c2 c3 -> R c1 c3.
Hypothesis R_emit : forall e c, R c (emit e c).
Hypothesis R_tick : forall c, R c (tick c).
Hypothesis R_store : forall info, preserves R (store_app_info info).

Lemma preserves_list_loop w ids infos : preserves R (list_loop w ids infos).
Proof.
  revert infos. induction ids as [|x rest IH]; intros infos.
  - by apply preserves_ret.
  - cbn [list_loop]. apply preserves_bind; [assumption| |].
    + by apply preserves_fetch_app_info.
    + intros [info|]; [|apply IH].
      apply preserves_bind; [assumption | apply R_store | intros _; apply IH].
Qed.

Lemma preserves_list_testflight w : preserves R (list_testflight w).
Proof.
  unfold list_testflight. apply preserves_bind; [assumption| |].
  - by apply preserves_gets.
  - intros [|x l]; [by apply preserves_reply|].
    apply preserves_bind; [assumption | apply preserves_list_loop |].
    intros infos. by apply preserves_reply.
Qed.

End ListFrame.

Lemma send_targets_of_requests (l : list string) :
  send_targets ((fun x => HttpGet (join_url x)) <$> l) = [].
Proof. induction l as [|y l IH]; [reflexivity | exact IH]. Qed.

(** The loop of [list_testflight] requests the pages of a first part of the
    list and does nothing else that shows in the trace. *)
Lemma list_loop_trace w ids infos c :
  exists k,
    trace (snd (list_loop w ids infos c)) =
    trace c ++ ((fun x => HttpGet (join_url x)) <$> take k ids).
Proof.
  revert infos c. induction ids as [|x rest IH]; intros infos c.
  - exists 0. cbn. by rewrite app_nil_r.
  - rewrite list_loop_step, fetch_app_info_run.
    destruct (session c); [|exists 0; cbn; by rewrite app_nil_r].
    cbv zeta.
    assert (forall r : res (list TestFlightApp),
              exists k, trace (snd (r, tick (emit (HttpGet (join_url x)) c))) =
                trace c ++ ((fun x => HttpGet (join_url x)) <$> take k (x :: rest)))
      as Hstop by (intros r; exists 1; reflexivity).
    assert (forall infos' c1,
              trace c1 = trace c ++ [HttpGet (join_url x)] ->
              exists k, trace (snd (list_loop w rest infos' c1)) =
                trace c ++ ((fun x => HttpGet (join_url x)) <$> take k (x :: rest)))
      as Hgo.
    { intros infos' c1 Hc1. destruct (IH infos' c1) as [k Hk].
      exists (S k). rewrite Hk, Hc1, <- app_assoc. reflexivity. }
    destruct (http_get w (clock c) (join_url x)) as [|st soup]; [apply Hstop|].
    destruct (st =? 200)%Z; [|by apply Hgo].
    destruct (parse_page x soup) as [info|e]; [|apply Hstop].
    rewrite store_app_info_run. cbn [tick emit db_connection].
    destruct (db_connection c !! "state"); [by apply Hgo | apply Hstop].
Qed.

Lemma list_loop_other_rows w ids infos c app_id :
  app_id ∉ ids ->
  stored app_id (snd (list_loop w ids infos c)) = stored app_id c.
Proof.
  revert infos c. induction ids as [|x rest IH]; intros infos c Hnot; [reflexivity|].
  apply not_elem_of_cons in Hnot as [Hne Hnot]. rewrite list_loop_step.
  pose proof (fetch_keeps_db w x c) as Hdb.
  destruct (fetch_app_info w x c) as [[[info|]|e] c1] eqn:Hf; cbn [snd] in Hdb.
  - pose proof (fetch_app_info_some _ _ _ _ _ Hf) as [_ Hid].
    pose proof (stored_store_other info c1 app_id) as Hs.
    destruct (store_app_info info c1) as [[[]|e] c2]; cbn [snd] in *.
    + rewrite (IH _ _ Hnot), Hs by congruence. by apply stored_same_db.
    + rewrite Hs by congruence. by apply stored_same_db.
  - rewrite (IH _ _ Hnot). by apply stored_same_db.
  - by apply stored_same_db.
Qed.

(** Every record the loop adds to its list is of an id of the list and, when
    no id is repeated, is what the table holds at the end. *)
Lemma list_loop_rows w ids infos c out c' :
  NoDup ids ->
  list_loop w ids infos c = (Ret out, c') ->
  exists new,
    out = infos ++ new /\
    Forall (fun info => id info ∈ ids /\ stored (id info) c' = Some (is_full info)) new.
Proof.
  revert infos c. induction ids as [|x rest IH]; intros infos c Hnd Hrun.
  - cbn in Hrun. injection Hrun as <- <-. exists []. by rewrite app_nil_r.
  - apply NoDup_cons in Hnd as [Hx Hnd]. rewrite list_loop_step in Hrun.
    destruct (fetch_app_info w x c) as [[[info|]|e] c1] eqn:Hf; [| |discriminate].
    + pose proof (fetch_app_info_some _ _ _ _ _ Hf) as [_ Hid].
      rewrite store_app_info_run in Hrun.
      destruct (db_connection c1 !! "state") as [t|] eqn:Ht; [|discriminate].
      destruct (IH _ _ Hnd Hrun) as (new & -> & Hnew).
      exists (info :: new). split; [by rewrite <- app_assoc|].
      constructor.
      * split; [rewrite Hid; by left|].
        change c' with (snd (Ret (((infos ++ [info]) ++ new)), c')).
        rewrite <- Hrun, list_loop_other_rows by (by rewrite Hid).
        unfold stored. cbn [count_change set_db db_connection]. rewrite lookup_insert_eq. cbn.
        apply lookup_insert_eq.
      * eapply Forall_impl; [exact Hnew|]. intros i [Hi Hs].
        split; [by right | exact Hs].
    + destruct (IH _ _ Hnd Hrun) as (new & -> & Hnew).
      exists new. split; [reflexivity|].
      eapply Forall_impl; [exact Hnew|]. intros i [Hi Hs].
      split; [by right | exact Hs].
Qed.

(** X19.  When [list_testflight] runs to its reply over a list without
    repeated ids, every app it reports is a watched one and the table holds
    for it the status just fetched. *)
Theorem list_testflight_stores_what_it_reports w c infos c1 :
  NoDup (watched_apps c) ->
  watched_apps c ≠ [] ->
  list_loop w (watched_apps c) [] c = (Ret infos, c1) ->
  let c' := snd (list_testflight w c) in
  trace c' =
    trace c1 ++ [CtxSend ("Watching apps:" +:+ newline +:+
                          Py.join newline (app_line <$> infos))] /\
  Forall (fun info => id info ∈ watched_apps c /\
                      stored (id info) c' = Some (is_full info)) infos.
Proof.
  intros Hnd Hne Hrun c'.
  assert (list_testflight w c =
          reply w ("Watching apps:" +:+ newline +:+ Py.join newline (app_line <$> infos)) c1)
    as Hlist.
  { unfold list_testflight. run. destruct (watched_apps c) as [|x l]; [done|].
    rewrite Hrun. reflexivity. }
  subst c'. rewrite Hlist, reply_run. cbn [snd]. split; [reflexivity|].
  destruct (list_loop_rows _ _ _ _ _ _ Hnd Hrun) as (new & -> & Hnew). exact Hnew.
Qed.

Lemma list_testflight_stores_what_it_reports_witness :
  let w := Sample.calm (Response 200 Sample.page_open) in
  let c := Sample.cog false {[ "A" := true ]} ["A"; "B"] in
  let infos := [Sample.foo false "A"; Sample.foo false "B"] in
  let c1 := snd (list_loop w (watched_apps c) [] c) in
  let c' := snd (list_testflight w c) in
  trace c' =
    trace c1 ++ [CtxSend ("Watching apps:" +:+ newline +:+
                          Py.join newline (app_line <$> infos))] /\
  Forall (fun info => id info ∈ watched_apps c /\
                      stored (id info) c' = Some (is_full info)) infos.
Proof.
  intros w c infos c1 c'.
  apply (list_testflight_stores_what_it_reports w c infos c1).
  - apply (bool_decide_unpack (NoDup ["A"; "B"])). vm_compute. exact I.
  - discriminate.
  - vm_compute. reflexivity.
Defined.

(** X20.  [list_testflight] changes no setting and not the flag, sends
    nothing to the notification channel and calls no [send_info], deletes no
    row and leaves the rows of unwatched ids as they were; on an empty list
    its only act is the reply. *)
Theorem list_testflight_only_fetches_and_stores w c :
  let c' := snd (list_testflight w c) in
  configuration c' = configuration c /\
  fresh_start c' = fresh_start c /\
  send_targets (new_events c c') = [] /\
  Forall (fun e => is_notify_change e = false) (new_events c c') /\
  (forall app_id, has_status app_id c -> has_status app_id c') /\
  (forall app_id, app_id ∉ watched_apps c -> stored app_id c' = stored app_id c) /\
  (watched_apps c = [] -> new_events c c' = [CtxSend "No apps being watched"]).
Proof.
  intros c'. subst c'. split; [|split; [|split; [|split; [|split; [|split]]]]].
  - apply (preserves_list_testflight (same configuration));
      first [apply same_refl | apply same_trans | reflexivity | idtac].
    intros info c0. unfold same. rewrite store_app_info_run.
    destruct (db_connection c0 !! "state"); reflexivity.
  - apply (preserves_list_testflight (same fresh_start));
      first [apply same_refl | apply same_trans | reflexivity | idtac].
    apply store_keeps_fresh_start.
  - unfold list_testflight. run. destruct (watched_apps c) as [|x l] eqn:Hw.
    + rewrite reply_run. by rewrite (new_events_app _ _ [CtxSend "No apps being watched"]).
    + destruct (list_loop_trace w (x :: l) [] c) as [k Hk].
      destruct (list_loop w (x :: l) [] c) as [[infos|e] c1]; cbn [snd] in *.
      * rewrite reply_run. cbn [snd].
        erewrite new_events_app;
          [|cbn [tick emit trace]; rewrite Hk, <- app_assoc; reflexivity].
        rewrite send_targets_app, send_targets_of_requests. reflexivity.
      * rewrite (new_events_app _ _ _ Hk). apply send_targets_of_requests.
  - unfold list_testflight. run. destruct (watched_apps c) as [|x l] eqn:Hw.
    + rewrite reply_run.
      rewrite (new_events_app _ _ [CtxSend "No apps being watched"]) by reflexivity.
      repeat constructor.
    + destruct (list_loop_trace w (x :: l) [] c) as [k Hk].
      assert (Forall (fun e => is_notify_change e = false)
                ((fun x => HttpGet (join_url x)) <$> take k (x :: l))) as Hreq.
      { apply Forall_fmap. apply Forall_forall. reflexivity. }
      destruct (list_loop w (x :: l) [] c) as [[infos|e] c1]; cbn [snd] in *.
      * rewrite reply_run. cbn [snd].
        erewrite new_events_app;
          [|cbn [tick emit trace]; rewrite Hk, <- app_assoc; reflexivity].
        apply Forall_app. split; [exact Hreq | repeat constructor].
      * by rewrite (new_events_app _ _ _ Hk).
  - intros app_id.
    apply (preserves_list_testflight (keeps_status app_id)).
    + intros c0 H. exact H.
    + intros c1 c2 c3 H12 H23 H. apply H23, H12, H.
    + intros e c0 H. exact H.
    + intros c0 H. exact H.
    + apply keeps_status_store.
  - intros app_id Hnot. unfold list_testflight. run.
    destruct (watched_apps c) as [|x l] eqn:Hw; [by rewrite reply_run|].
    pose proof (list_loop_other_rows w (x :: l) [] c app_id Hnot) as Hrows.
    destruct (list_loop w (x :: l) [] c) as [[infos|e] c1]; cbn [snd] in *.
    + rewrite reply_run. exact Hrows.
    + exact Hrows.
  - intros Hw. unfold list_testflight. run. rewrite Hw, reply_run.
    by apply new_events_app.
Qed.

(** ** Setting the channel *)

(** X21.  [set_testflight_channel] changes neither the watched list nor the
    table.  When the channel is found, it becomes the configured one and every
    message of a following cycle goes to it; when it is not found the command
    raises, replies nothing and the configured channel stays. *)
Theorem set_testflight_channel_redirects w channel_id c :
  let c' := snd (set_testflight_channel w channel_id c) in
  watched_apps c' = watched_apps c /\
  db_connection c' = db_connection c /\
  (fetch_channel w (clock c) channel_id = ChannelFound ->
     notification_channel_id c' = channel_id /\
     forall w', Forall (fun ch => ch = channel_id)
                  (send_targets (new_events c' (snd (loop_callback w' c'))))) /\
  (fetch_channel w (clock c) channel_id ≠ ChannelFound ->
     returned (fst (set_testflight_channel w channel_id c)) = false /\
     notification_channel_id c' = notification_channel_id c /\
     trace c' = trace c).
Proof.
  intros c'. subst c'. unfold set_testflight_channel. run.
  destruct (fetch_channel w (clock c) channel_id); run.
  - rewrite reply_run. cbn [snd tick emit set_channel watched_apps db_connection
                                notification_channel_id].
    repeat split; try done.
    intros w'.
    pose proof (loop_callback_events w'
      (tick (emit (CtxSend ("Notification channel set to <#" +:+ pretty channel_id +:+ ">"))
                  (set_channel channel_id (tick c))))) as (_ & _ & Hs & _).
    exact Hs.
  - repeat split; try done.
  - repeat split; try done.
Qed.

(** ** The fullness phrase *)

Lemma lower_app a b : Py.lower (a +:+ b) = Py.lower a +:+ Py.lower b.
Proof.
  induction a as [|x a IH]; [reflexivity|].
  rewrite str_app_cons. cbn [Py.lower]. by rewrite str_app_cons, IH.
Qed.

Lemma contains_app sub a b : Py.contains sub (a +:+ sub +:+ b) = true.
Proof.
  induction a as [|x a IH].
  - change ("" +:+ sub +:+ b) with (sub +:+ b).
    destruct (sub +:+ b) eqn:E; cbn [Py.contains]; rewrite <- E, prefix_app; reflexivity.
  - rewrite str_app_cons. cbn [Py.contains]. rewrite IH. apply orb_true_r.
Qed.

(** The record that [parse_page] returns says full exactly when the
    lower-cased text of the status span holds the phrase. *)
Lemma parse_page_is_full app_id soup info :
  parse_page app_id soup = Ret info ->
  exists div text,
    status_div soup = Some div /\ span_text div = Some text /\
    is_full info = Py.contains "is full" (Py.lower text).
Proof.
  unfold parse_page, res_bind. intros H.
  destruct (status_div soup) as [div|] eqn:Hdiv; [|discriminate].
  destruct (span_text div) as [text|] eqn:Hspan; [|discriminate].
  exists div, text. split; [reflexivity|]. split; [exact Hspan|].
  repeat match type of H with
         | match ?x with _ => _ end = _ => destruct x; try discriminate H
         end.
  injection H as <-. reflexivity.
Qed.

(** X5.  A status text that holds the words [is full] in any mix of upper
    and lower case marks the app as full. *)
Theorem full_phrase_in_any_case app_id soup div before phrase after info :
  status_div soup = Some div ->
  span_text div = Some (before +:+ phrase +:+ after) ->
  Py.lower phrase = "is full" ->
  parse_page app_id soup = Ret info ->
  is_full info = true.
Proof.
  intros Hdiv Hspan Hphrase Hparse.
  destruct (parse_page_is_full _ _ _ Hparse) as (div' & text & Hd & Ht & ->).
  rewrite Hdiv in Hd. injection Hd as <-. rewrite Hspan in Ht. injection Ht as <-.
  rewrite !lower_app, Hphrase. apply contains_app.
Qed.

Lemma full_phrase_in_any_case_witness :
  is_full (Sample.foo true "abc123") = true.
Proof.
  apply (full_phrase_in_any_case "abc123" (Sample.page "This beta Is FULL, sorry")
           (mkStatusDiv (Some "This beta Is FULL, sorry") (Some Sample.icon))
           "This beta " "Is FULL" ", sorry" (Sample.foo true "abc123"));
    vm_compute; reflexivity.
Defined.

(** ** Witnesses of the iteration lemmas *)

Lemma bad_status_skips_store_witness :
  let w := Sample.calm (Response 204 Sample.page_open) in
  let c := Sample.cog false {[ "A" := true ]} ["A"] in
  let c1 := tick (emit (HttpGet (join_url "A")) c) in
  fetch_app_info w "A" c = (Ret None, c1) /\
  loop_body w "A" c =
    (if send_errors c then send_error w "A" c1 else (Ret tt, c1)) /\
  db_connection (snd (loop_body w "A" c)) = db_connection c.
Proof.
  intros w c c1.
  apply (bad_status_skips_store w c "A" 204 Sample.page_open);
    vm_compute; first [reflexivity | discriminate].
Defined.

Lemma fetched_status_stored_witness :
  let w := Sample.calm (Response 200 Sample.page_open) in
  let c := Sample.cog false {[ "A" := true ]} ["A"] in
  let info := Sample.foo false "A" in
  let c1 := tick (emit (HttpGet (join_url "A")) c) in
  (fst (loop_body w "A" c) = Ret tt /\
   stored "A" (snd (loop_body w "A" c)) = Some (is_full info)) \/
  (exists e c2, send_info w info c1 = (Raise e, c2) /\
                loop_body w "A" c = (Raise e, c2)).
Proof.
  intros w c info c1.
  apply (fetched_status_stored w c "A" info c1 {[ "A" := true ]});
    vm_compute; reflexivity.
Defined.

Lemma error_delivery_failure_aborts_cycle_witness :
  let w := Sample.unreachable (Response 404 Sample.page_open) in
  let c := Sample.cog false {[ "A" := true ]} ["A"; "B"] in
  let c1 := tick (emit (HttpGet (join_url "A")) c) in
  for_each (loop_body w) ["A"; "B"] c =
    (Raise DiscordException, snd (send_error w "A" c1)).
Proof.
  intros w c c1.
  apply (error_delivery_failure_aborts_cycle w c "A" c1 DiscordException
           (snd (send_error w "A" c1)) ["B"]);
    vm_compute; reflexivity.
Defined.

(** ** The table is never missing *)

Lemma init_table_ready file sess s : table_ready (init file sess s).
Proof.
  unfold table_ready, init, create_cache, tables. cbn [snd db_connection].
  rewrite lookup_fmap.
  destruct (file !! "state") as [e|] eqn:E; [rewrite E; cbn; eauto|].
  rewrite lookup_insert_eq. cbn. eauto.
Qed.

Lemma store_keeps_table info :
  preserves (fun c c' => table_ready c -> table_ready c') (store_app_info info).
Proof.
  intros c. rewrite store_app_info_run. unfold table_ready.
  destruct (db_connection c !! "state") as [t|] eqn:E; cbn [snd]; [|by rewrite E].
  cbn [count_change set_db db_connection]. rewrite lookup_insert_eq. eauto.
Qed.

Lemma loop_callback_keeps_table w c :
  table_ready c -> table_ready (snd (loop_callback w c)).
Proof.
  apply (preserves_loop_callback (fun c c' => table_ready c -> table_ready c')).
  - intros c0 H. exact H.
  - intros c1 c2 c3 H12 H23 H. apply H23, H12, H.
  - intros e c0 H. exact H.
  - intros c0 H. exact H.
  - apply store_keeps_table.
Qed.

Lemma run_cycles_keeps_table ws c :
  table_ready c -> table_ready (run_cycles ws c).
Proof.
  revert c. induction ws as [|w ws IH]; intros c H; [exact H|].
  cbn [run_cycles]. by apply IH, loop_callback_keeps_table.
Qed.

Lemma parse_page_exception app_id soup e :
  parse_page app_id soup = Raise e -> e ≠ OperationalError.
Proof.
  unfold parse_page, res_bind, item. intros H.
  repeat match type of H with
         | context [match ?x with _ => _ end] =>
             lazymatch x with
             | context [match _ with _ => _ end] => fail
             | _ => destruct x; try discriminate H
             end
         end; congruence.
Qed.

Lemma send_info_exception w info c e :
  fst (send_info w info c) = Raise e -> e = DiscordException.
Proof.
  unfold send_info, notification_channel, send_message. run.
  destruct (get_channel w (clock c) (notification_channel_id c)); run.
  - destruct (channel_send w (S (clock c))); run; congruence.
  - destruct (fetch_channel w (S (clock c)) (notification_channel_id c)); run;
      [destruct (channel_send w (S (S (clock c)))); run|..]; congruence.
Qed.

Lemma send_error_exception w app_id c e :
  fst (send_error w app_id c) = Raise e -> e = DiscordException.
Proof.
  unfold send_error, notification_channel, send_message. run.
  destruct (get_channel w (clock c) (notification_channel_id c)); run.
  - destruct (channel_send w (S (clock c))); run; congruence.
  - destruct (fetch_channel w (S (clock c)) (notification_channel_id c)); run;
      [destruct (channel_send w (S (S (clock c)))); run|..]; congruence.
Qed.

Lemma loop_body_no_missing_table w app_id c :
  table_ready c -> fst (loop_body w app_id c) ≠ Raise OperationalError.
Proof.
  intros [t Ht].
  destruct (fetch_app_info w app_id c) as [[[info|]|e] c1] eqn:Hf.
  - rewrite (loop_body_some _ _ _ _ _ _ Hf Ht).
    pose proof (fetch_app_info_some _ _ _ _ _ Hf) as [-> _].
    assert (forall c', db_connection c' = db_connection c ->
              fst (store_app_info info c') ≠ Raise OperationalError) as Hstore.
    { intros c' Hdb. rewrite store_app_info_run, Hdb, Ht. discriminate. }
    destruct (fresh_start c || negb (differs (is_full info) (t !! app_id))).
    + by apply Hstore.
    + rewrite bind_unfold.
      pose proof (send_info_exception w info (tick (emit (HttpGet (join_url app_id)) c))) as He.
      pose proof (send_info_keeps_db w info (tick (emit (HttpGet (join_url app_id)) c))) as Hdb.
      destruct (send_info w info (tick (emit (HttpGet (join_url app_id)) c)))
        as [[[]|e] c2]; cbn [fst snd] in *.
      * by apply Hstore.
      * rewrite (He e eq_refl). discriminate.
  - rewrite (loop_body_none _ _ _ _ Hf). destruct (send_errors c); [|discriminate].
    pose proof (send_error_exception w app_id c1) as He.
    destruct (send_error w app_id c1) as [[[]|e] c2]; cbn [fst] in *; [discriminate|].
    rewrite (He e eq_refl). discriminate.
  - unfold loop_body. rewrite (bind_raise _ _ _ _ _ Hf). cbn [fst].
    revert Hf. rewrite fetch_app_info_run. destruct (session c); [|congruence].
    cbv zeta. destruct (http_get w (clock c) (join_url app_id)) as [|st soup];
      [congruence|].
    destruct (st =? 200)%Z; [|discriminate].
    destruct (parse_page app_id soup) as [i|e'] eqn:Hp; [discriminate|].
    intros [= <- _]. intros [= ->]. by apply parse_page_exception in Hp.
Qed.

Lemma loop_body_keeps_table w app_id c :
  table_ready c -> table_ready (snd (loop_body w app_id c)).
Proof.
  apply (preserves_loop_body (fun c c' => table_ready c -> table_ready c')).
  - intros c0 H. exact H.
  - intros c1 c2 c3 H12 H23 H. apply H23, H12, H.
  - intros e c0 H. exact H.
  - intros c0 H. exact H.
  - apply store_keeps_table.
Qed.

Lemma loop_callback_no_missing_table w c :
  table_ready c -> fst (loop_callback w c) ≠ Raise OperationalError.
Proof.
  rewrite loop_callback_run.
  change (table_ready c)
    with (table_ready (emit (LogDebug "Checking TestFlight app statuses") c)).
  generalize (emit (LogDebug "Checking TestFlight app statuses") c).
  induction (watched_apps c) as [|x l IH]; intros c0 Hready; [discriminate|].
  rewrite for_each_cons.
  pose proof (loop_body_no_missing_table w x c0 Hready) as Hx.
  pose proof (loop_body_keeps_table w x c0 Hready) as Hk.
  destruct (loop_body w x c0) as [[[]|e] c1]; cbn [fst snd] in *.
  - by apply IH.
  - exact Hx.
Qed.

(** X22.  [__init__] creates the table when it is missing and no cycle drops
    it: after any number of cycles the table is there, [was_full] answers the
    row and a further cycle never raises the missing-table error. *)
Theorem table_never_missing_after_init file sess s ws w :
  let c := run_cycles ws (init file sess s) in
  is_Some (db_connection c !! "state") /\
  fst (loop_callback w c) ≠ Raise OperationalError /\
  (forall app_id, fst (was_full app_id c) = Ret (stored app_id c)).
Proof.
  intros c.
  assert (table_ready c) as Hready
    by apply run_cycles_keeps_table, init_table_ready.
  split; [exact Hready|]. split; [by apply loop_callback_no_missing_table|].
  intros app_id. rewrite was_full_run. unfold stored.
  destruct Hready as [t ->]. reflexivity.
Qed.
